(** * Lios: the OCR engine base class and the multiprocessing compatibility layer

    A shallow embedding of [lios/mp_compat.py] and [lios/ocr/ocr_engine_base.py].
    Python objects are attribute dictionaries ([gmap string pyval]), class
    attributes are fields of an explicit process state that every class method
    threads, abstract methods are the fields of a type class, and a raised
    exception is the [Raised] outcome of a call. *)

From Stdlib Require Import ZArith Lia.
From stdpp Require Import base strings list gmap pretty.

Open Scope string_scope.
Open Scope Z_scope.

(** ** The fragment of Python the two modules use *)

Module Py.

(** The values the language slots can hold: [None], a boolean, a string. *)
Inductive pyval : Type :=
| PyNone
| PyBool (b : bool)
| PyStr (s : string).

#[global] Instance pyval_eq_dec : EqDecision pyval.
Proof. solve_decision. Defined.

(** The exceptions that occur; [str(e)] is the message. *)
Inductive exn : Type :=
| RuntimeError (msg : string)
| ValueError (msg : string)
| TypeError (msg : string).

#[global] Instance exn_eq_dec : EqDecision exn.
Proof. solve_decision. Defined.

Definition str (e : exn) : string :=
  match e with
  | RuntimeError msg | ValueError msg | TypeError msg => msg
  end.

(** A call either returns a value or raises. *)
Inductive outcome (A : Type) : Type :=
| Returned (a : A)
| Raised (e : exn).
Arguments Returned {A} a.
Arguments Raised {A} e.

Definition raises {A} (o : outcome A) : bool :=
  match o with Returned _ => false | Raised _ => true end.

(** [needle in hay] on strings. *)
Fixpoint contains (needle hay : string) : bool :=
  if String.prefix needle hay then true
  else match hay with
       | EmptyString => false
       | String _ rest => contains needle rest
       end.

(** The wording of CPython's arity error
    ("f() takes 0 positional arguments but 1 was given"). *)
Definition too_many_positional (qualname : string) (takes given : nat) : string :=
  qualname +:+ "() takes " +:+ pretty takes +:+ " positional argument"
    +:+ (if decide (takes = 1%nat) then "" else "s")
    +:+ " but " +:+ pretty given
    +:+ (if decide (given = 1%nat) then " was" else " were") +:+ " given".

(** The names in CPython's missing-argument error: ['a'], ['a' and 'b'],
    ['a', 'b', and 'c']. *)
Definition quoted (name : string) : string := "'" +:+ name +:+ "'".

Fixpoint comma_names (names : list string) : string :=
  match names with
  | [] => ""
  | [a] => quoted a
  | [a; b] => quoted a +:+ ", and " +:+ quoted b
  | a :: rest => quoted a +:+ ", " +:+ comma_names rest
  end.

Definition missing_names (names : list string) : string :=
  match names with
  | [a; b] => quoted a +:+ " and " +:+ quoted b
  | _ => comma_names names
  end.

Definition missing_positional (qualname : string) (missing : list string) : string :=
  qualname +:+ "() missing " +:+ pretty (length missing)
    +:+ " required positional argument"
    +:+ (if decide (length missing = 1%nat) then "" else "s")
    +:+ ": " +:+ missing_names missing.

(** Calling a function defined with the positional parameters [params]
    (no defaults, no [*args]) on [given] positional arguments: the body runs
    only when the counts agree. *)
Definition call_def {A} (qualname : string) (params : list string)
    (given : nat) (body : outcome A) : outcome A :=
  if decide (given = length params)%nat then body
  else if decide (length params < given)%nat
       then Raised (TypeError (too_many_positional qualname (length params) given))
       else Raised (TypeError (missing_positional qualname (drop given params))).

(** [obj.f(a1, ..., an)] on a plain function found in the class: the
    instance is bound as the first positional argument. *)
Definition call_bound {A} (qualname : string) (params : list string)
    (nargs : nat) (body : outcome A) : outcome A :=
  call_def qualname params (S nargs) body.

End Py.
Import Py.

(** ** [lios/mp_compat.py] *)

Module MpCompat.

(** The two entry points of the [multiprocessing] module that the class
    calls, over the module's own state [R]:
    [get_start_method(allow_none=True)], which only reads, and
    [set_start_method(method, force=...)], which returns normally ([None])
    or raises. *)
Class Multiprocessing (R : Type) := {
  get_start_method : R -> option string;
  set_start_method : string -> bool -> R -> option exn * R
}.

(** CPython's [multiprocessing.context.DefaultContext]: the start method is
    fixed once ([_actual_context]); [_concrete_contexts] are the methods the
    platform offers. *)
Record default_context : Type := {
  _actual_context : option string;
  _concrete_contexts : list string
}.

Definition cpython_get_start_method (c : default_context) : option string :=
  _actual_context c.

Definition cpython_set_start_method (method : string) (force : bool)
    (c : default_context) : option exn * default_context :=
  if bool_decide (_actual_context c <> None) && negb force then
    (Some (RuntimeError "context has already been set"), c)
  else if bool_decide (method ∈ _concrete_contexts c) then
    (None, {| _actual_context := Some method;
              _concrete_contexts := _concrete_contexts c |})
  else
    (Some (ValueError ("cannot find context for '" +:+ method +:+ "'")), c).

#[global] Instance cpython : Multiprocessing default_context := {
  get_start_method := cpython_get_start_method;
  set_start_method := cpython_set_start_method
}.

(** [sys.version_info], as far as the class reads it. *)
Record version_info : Type := {
  major : Z;
  minor : Z;
  micro : Z
}.

(** The process: the class attributes of [MultiprocessingCompatibility] and
    the state of the [multiprocessing] module. *)
Record process (R : Type) : Type := {
  _initialized : bool;
  _python_version : version_info;
  multiprocessing : R
}.
Arguments _initialized {R} _.
Arguments _python_version {R} _.
Arguments multiprocessing {R} _.

(** The dictionary [get_status] returns. *)
Record status : Type := {
  python_version : string;
  python_version_tuple : Z * Z * Z;
  needs_workaround : bool;
  current_start_method : option string;
  initialized : bool;
  compatible : bool
}.

(** How an f-string shows the start method. *)
Definition show_method (m : option string) : string :=
  match m with
  | Some name => name
  | None => "None"
  end.

Section Class.
Context {R : Type} `{!Multiprocessing R}.

(** [cls._initialized = True] *)
Definition mark_initialized (w : process R) : process R :=
  {| _initialized := true;
     _python_version := _python_version w;
     multiprocessing := multiprocessing w |}.

(** The process after a call into [multiprocessing] left it in [r]. *)
Definition with_multiprocessing (r : R) (w : process R) : process R :=
  {| _initialized := _initialized w;
     _python_version := _python_version w;
     multiprocessing := r |}.

Definition get_python_version_info (w : process R) : Z * Z * Z :=
  (major (_python_version w),
   minor (_python_version w),
   micro (_python_version w)).

Definition needs_fork_workaround (w : process R) : bool :=
  let '(major, minor, _) := get_python_version_info w in
  (major =? 3) && (minor >=? 14) || (major >? 3).

(** [if verbose: print(line)] *)
Definition say (verbose : bool) (line : string) : list string :=
  if verbose then [line] else [].

(** [initialize(force, verbose)]: the outcome, the process afterwards and
    the lines printed. *)
Definition initialize (force verbose : bool) (w : process R)
    : outcome bool * process R * list string :=
  if _initialized w && negb force then
    (Returned true, w, say verbose "[mp_compat] Already initialized")
  else
    let '(major, minor, micro) := get_python_version_info w in
    let detected :=
      say verbose ("[mp_compat] Python " +:+ pretty major +:+ "."
                     +:+ pretty minor +:+ "." +:+ pretty micro +:+ " detected") in
    if needs_fork_workaround w then
      let current_method := get_start_method (multiprocessing w) in
      if negb (bool_decide (current_method = Some "fork")) then
        match set_start_method "fork" force (multiprocessing w) with
        | (None, r) =>
            (Returned true, mark_initialized (with_multiprocessing r w),
             app detected
               (say verbose ("[mp_compat] Changed start method from '"
                               +:+ show_method current_method +:+ "' to 'fork'")))
        | (Some (RuntimeError e), r) =>
            if contains "context has already been set" e && negb force then
              (Returned true, mark_initialized (with_multiprocessing r w),
               app detected
                 (say verbose "[mp_compat] Start method already set (cannot change)"))
            else
              (Returned false, with_multiprocessing r w,
               app detected
                 (say verbose ("[mp_compat] Warning: Could not set start method: "
                                 +:+ e)))
        | (Some e, r) => (Raised e, with_multiprocessing r w, detected)
        end
      else
        (Returned true, mark_initialized w,
         app detected
           (say verbose "[mp_compat] Start method already set to 'fork'"))
    else
      (Returned true, mark_initialized w,
       app detected
         (say verbose "[mp_compat] No workaround needed for this Python version")).

Definition get_status (w : process R) : status :=
  let '(major, minor, micro) := get_python_version_info w in
  let current_method := get_start_method (multiprocessing w) in
  {| python_version := pretty major +:+ "." +:+ pretty minor +:+ "." +:+ pretty micro;
     python_version_tuple := (major, minor, micro);
     needs_workaround := needs_fork_workaround w;
     current_start_method := current_method;
     initialized := _initialized w;
     compatible :=
       if needs_fork_workaround w
       then bool_decide (current_method = Some "fork")
       else true |}.

(** The three parts of what [initialize] gives back. *)
Definition result_of (x : outcome bool * process R * list string) : outcome bool :=
  x.1.1.
Definition process_after (x : outcome bool * process R * list string) : process R :=
  x.1.2.
Definition printed (x : outcome bool * process R * list string) : list string :=
  x.2.

(** [n] calls of [initialize(force, verbose)] in a row, by a caller that
    goes on after an exception. *)
Fixpoint initialize_times (n : nat) (force verbose : bool) (w : process R)
    : process R :=
  match n with
  | O => w
  | S k => initialize_times k force verbose
             (process_after (initialize force verbose w))
  end.

(** What a client of the module can do, and a run of such calls. *)
Inductive mp_call : Type :=
| Initialize (force verbose : bool)
| GetStatus.

Definition mp_step (c : mp_call) (w : process R) : process R :=
  match c with
  | Initialize force verbose => process_after (initialize force verbose w)
  | GetStatus => w
  end.

Definition mp_run (cs : list mp_call) (w : process R) : process R :=
  fold_left (fun w c => mp_step c w) cs w.

End Class.

(** [ensure_fork_context(func)]: the wrapper calls [initialize()] with the
    defaults and then [func] on its arguments, in the process [initialize]
    left; an exception out of [initialize] leaves the wrapper before [func]
    is reached. *)
Definition ensure_fork_context {R A B : Type} `{!Multiprocessing R}
    (func : A -> process R -> outcome B * process R)
    (args : A) (w : process R) : outcome B * process R :=
  match initialize false false w with
  | (Returned _, w', _) => func args w'
  | (Raised e, w', _) => (Raised e, w')
  end.

(** The module body: [MultiprocessingCompatibility.initialize(verbose=False)]
    runs when the module is imported. *)
Definition import_mp_compat {R : Type} `{!Multiprocessing R} (w : process R)
    : outcome bool * process R * list string :=
  initialize false false w.

End MpCompat.

(** ** [lios/ocr/ocr_engine_base.py] *)

Module OcrEngineBase.

(** An engine object: its attribute dictionary. *)
Abbreviation instance := (gmap string pyval).

(** The abstract methods a concrete engine class supplies. The static ones
    are values of the class; recognition runs in a process [P], may change
    the object and the process, and may raise. *)
Class OcrEngine (P : Type) := {
  get_available_languages : list string;
  support_multiple_languages : bool;
  ocr_image_to_text : instance -> string -> P -> outcome string * instance * P;
  is_available : bool
}.

(** The three language slots and the attribute behind each. *)
Inductive slot : Type := Primary | Secondary | Tertiary.

Definition slot_attr (s : slot) : string :=
  match s with
  | Primary => "language"
  | Secondary => "language_2"
  | Tertiary => "language_3"
  end.

Section Base.
Context {P : Type} `{!OcrEngine P}.

(** [__init__(self, language=None)] on a fresh object. *)
Definition __init__ (language : pyval) : instance :=
  <["language" := language]> ∅.

(** [def cancel(): pass], looked up on an instance and called. *)
Definition cancel (self : instance) : outcome pyval * instance :=
  (call_bound "OcrEngineBase.cancel" [] 0 (Returned PyNone), self).

Definition set_language (self : instance) (language : string) : bool * instance :=
  if bool_decide (language ∈ get_available_languages) then
    (true, <["language" := PyStr language]> self)
  else
    (false, self).

Definition set_language_2 (self : instance) (language : string) : bool * instance :=
  if bool_decide (language ∈ get_available_languages) then
    (true, <["language_2" := PyStr language]> self)
  else
    (false, <["language_2" := PyBool false]> self).

Definition set_language_3 (self : instance) (language : string) : bool * instance :=
  if bool_decide (language ∈ get_available_languages) then
    (true, <["language_3" := PyStr language]> self)
  else
    (false, <["language_3" := PyBool false]> self).

Definition ocr_image_to_text_with_multiprocessing (self : instance)
    (image_file_name : string) (w : P) : outcome string * instance * P :=
  ocr_image_to_text self image_file_name w.

(** The selection call that targets a slot. *)
Definition select (s : slot) : instance -> string -> bool * instance :=
  match s with
  | Primary => set_language
  | Secondary => set_language_2
  | Tertiary => set_language_3
  end.

(** Calls on an engine object that do not reach the concrete engine, and
    the object after a run of them. *)
Inductive engine_call : Type :=
| Select (s : slot) (language : string)
| Cancel.

Definition engine_step (c : engine_call) (self : instance) : instance :=
  match c with
  | Select s language => (select s self language).2
  | Cancel => (cancel self).2
  end.

Definition engine_run (cs : list engine_call) (self : instance) : instance :=
  fold_left (fun self c => engine_step c self) cs self.

End Base.

End OcrEngineBase.

Import MpCompat OcrEngineBase.

(** ** What the language slots may hold *)

Section Slots.
Context {P : Type} `{!OcrEngine P}.

(** Every slot that holds a language id holds a supported one. *)
Definition holds_only_supported (self : instance) : Prop :=
  forall (s : slot) (l : string),
    self !! slot_attr s = Some (PyStr l) -> l ∈ get_available_languages.







End Slots.

(** ** Concrete processes and a concrete engine *)

Module Demo.

(** The start methods of CPython on Linux, and on Windows. *)
Definition posix_contexts : list string := ["fork"; "spawn"; "forkserver"].
Definition windows_contexts : list string := ["spawn"].

Definition py_3_13_0 : version_info := {| major := 3; minor := 13; micro := 0 |}.
Definition py_3_14_0 : version_info := {| major := 3; minor := 14; micro := 0 |}.

(** A CPython process on Linux before [mp_compat] is imported, with the
    start method [m] chosen so far. *)
Definition posix (v : version_info) (m : option string) : process default_context :=
  {| _initialized := false;
     _python_version := v;
     multiprocessing := {| _actual_context := m;
                           _concrete_contexts := posix_contexts |} |}.

(** A [multiprocessing] whose start method cannot be changed, forced or
    not. *)
Record sealed : Type := { sealed_method : option string }.

Definition sealed_mp : Multiprocessing sealed :=
  {| get_start_method := sealed_method;
     set_start_method := fun _ _ r =>
       (Some (RuntimeError "start method is sealed"), r) |}.

Definition sealed_process : process sealed :=
  {| _initialized := true;
     _python_version := py_3_14_0;
     multiprocessing := {| sealed_method := Some "spawn" |} |}.

(** A CPython process on Windows, where [spawn] is the only start method. *)
Definition windows (v : version_info) (m : option string) : process default_context :=
  {| _initialized := false;
     _python_version := v;
     multiprocessing := {| _actual_context := m;
                           _concrete_contexts := windows_contexts |} |}.

(** A function to decorate: it reports whether the flag was set when it
    ran. *)
Definition probe (_ : unit) (w : process default_context)
    : outcome bool * process default_context :=
  (Returned (_initialized w), w).

(** An engine with three languages whose recognition answers with the file
    name and leaves object and process alone. *)
Definition echo_engine : OcrEngine (process default_context) :=
  {| get_available_languages := ["eng"; "mal"; "hin"];
     support_multiple_languages := true;
     ocr_image_to_text := fun self image_file_name w =>
       (Returned ("text of " +:+ image_file_name), self, w);
     is_available := true |}.

End Demo.

(** ** What a run of calls leaves in a slot *)

Section SlotHistory.
Context {P : Type} `{!OcrEngine P}.

#[global] Instance slot_eq_dec : EqDecision slot.
Proof. solve_decision. Defined.

(** The call is a selection on slot [s]. *)
Definition selects (s : slot) (c : engine_call) : bool :=
  match c with
  | Select s' _ => bool_decide (s' = s)
  | Cancel => false
  end.

(** The call is a selection on the primary slot of a supported language. *)
Definition selects_supported_primary (c : engine_call) : bool :=
  match c with
  | Select Primary language => bool_decide (language ∈ get_available_languages)
  | _ => false
  end.

(** What a selection of [language] stores in slot 2 or 3. *)
Definition stored (language : string) : pyval :=
  if bool_decide (language ∈ get_available_languages)
  then PyStr language
  else PyBool false.

End SlotHistory.

(** ** [lios/macros.py] *)

Module Macros.
Import Strings.Ascii.

(** [str.upper()] and [str.lower()] on ASCII text, character by
    character. *)
Definition is_ascii_char (c : ascii) : bool := (N_of_ascii c <? 128)%N.

Definition is_lowercase (c : ascii) : bool :=
  ((97 <=? N_of_ascii c) && (N_of_ascii c <=? 122))%N.

Definition is_uppercase (c : ascii) : bool :=
  ((65 <=? N_of_ascii c) && (N_of_ascii c <=? 90))%N.

Definition upper_char (c : ascii) : ascii :=
  if is_lowercase c then ascii_of_N (N_of_ascii c - 32) else c.

Definition lower_char (c : ascii) : ascii :=
  if is_uppercase c then ascii_of_N (N_of_ascii c + 32) else c.

Fixpoint upper (s : string) : string :=
  match s with
  | EmptyString => EmptyString
  | String c rest => String (upper_char c) (upper rest)
  end.

Fixpoint lower (s : string) : string :=
  match s with
  | EmptyString => EmptyString
  | String c rest => String (lower_char c) (lower rest)
  end.

Fixpoint is_ascii (s : string) : bool :=
  match s with
  | EmptyString => true
  | String c rest => is_ascii_char c && is_ascii rest
  end.

(** Every character of [s] is an ASCII letter. *)
Fixpoint letters_only (s : string) : bool :=
  match s with
  | EmptyString => true
  | String c rest => (is_lowercase c || is_uppercase c) && letters_only rest
  end.

(** [itertools.product] of the pools: the last pool runs fastest. *)
Fixpoint product {A : Type} (pools : list (list A)) : list (list A) :=
  match pools with
  | [] => [[]]
  | pool :: rest => flat_map (fun x => map (cons x) (product rest)) pool
  end.

(** A pair out of [zip], as the pool [product] receives. *)
Definition pool_of {A : Type} (p : A * A) : list A := [p.1; p.2].

(** The inner comprehension for one item [s]: the product of the pools
    [zip(s.upper(), s.lower())], each tuple joined into a string. *)
Definition mixed_case_combinations (s : string) : list string :=
  map String.string_of_list_ascii
    (product
       (map pool_of
          (zip (String.list_ascii_of_string (upper s))
               (String.list_ascii_of_string (lower s))))).

(** The pools for the characters [l] of an item: the capital and the small
    form of each. *)
Definition pools_of (l : list ascii) : list (list ascii) :=
  map (fun c => [upper_char c; lower_char c]) l.

Definition get_list_of_mixed_case_combinations (list_items : list string)
    : list string :=
  concat (map mixed_case_combinations list_items).

Definition supported_image_formats : list string :=
  get_list_of_mixed_case_combinations
    ["png"; "pnm"; "jpg"; "jpeg"; "tif"; "tiff"; "bmp"; "pbm"; "ppm"].

Definition supported_text_formats : list string :=
  get_list_of_mixed_case_combinations ["txt"; "text"].

Definition supported_pdf_formats : list string :=
  get_list_of_mixed_case_combinations ["pdf"].

(** [posixpath.join(a, *p)]. *)
Definition startswith_sep (b : string) : bool :=
  match b with
  | String "/" _ => true
  | _ => false
  end.

Fixpoint endswith_sep (path : string) : bool :=
  match path with
  | EmptyString => false
  | String c EmptyString => bool_decide (c = "/"%char)
  | String _ rest => endswith_sep rest
  end.

Definition join_step (path b : string) : string :=
  if startswith_sep b || bool_decide (path = "") then b
  else if endswith_sep path then path +:+ b
  else path +:+ "/" +:+ b.

Definition os_path_join (a : string) (p : list string) : string :=
  fold_left join_step p a.

(** The module globals that [_resolve_datadir] and [set_datadir] assign. *)
Record resources : Type := {
  datadir : string;
  logo_file : string;
  icon_dir : string;
  readme_file : string;
  default_text_cleaner_list_file_path : string
}.

(** Their values before [_resolve_datadir()] runs. *)
Definition default_names : resources :=
  {| datadir := "";
     logo_file := "lios.png";
     icon_dir := "icons/";
     readme_file := "readme.text";
     default_text_cleaner_list_file_path := "text_cleaner_list.text" |}.

(** The four resource paths under a data directory. *)
Definition resources_under (d : string) (logo : string) : resources :=
  {| datadir := d;
     logo_file := logo;
     icon_dir := os_path_join d ["icons"];
     readme_file := os_path_join d ["readme.text"];
     default_text_cleaner_list_file_path :=
       os_path_join d ["text_cleaner_list.text"] |}.

Section FileSystem.
(** [os.path.exists] at the time of the call, and the module globals
    [parent_dir] and [user_home_path]. *)
Variable os_path_exists : string -> bool.
Variables parent_dir user_home_path : string.

Definition _resolve_datadir : resources :=
  let source_data := os_path_join parent_dir ["share"; "lios"] in
  let datadir :=
    if os_path_exists (os_path_join source_data ["lios.png"]) then
      source_data
    else if os_path_exists
              (os_path_join user_home_path [".local"; "share"; "lios"; "lios.png"]) then
      os_path_join user_home_path [".local"; "share"; "lios"]
    else if os_path_exists "/usr/share/lios/lios.png" then
      "/usr/share/lios"
    else if os_path_exists "/usr/local/share/lios/lios.png" then
      "/usr/local/share/lios"
    else
      "/usr/share/lios" in
  resources_under datadir (os_path_join datadir ["lios.png"]).

Definition set_datadir (new_datadir : string) (g : resources) : resources :=
  let new_logo := os_path_join new_datadir ["lios.png"] in
  if os_path_exists new_logo then resources_under new_datadir new_logo
  else g.

(** The globals after the import and a run of [set_datadir] calls. *)
Definition after_overrides (news : list string) : resources :=
  fold_left (fun g new_datadir => set_datadir new_datadir g) news _resolve_datadir.

End FileSystem.

(** The four directories [_resolve_datadir] tries, in its order. *)
Definition resolve_candidates (parent_dir user_home_path : string) : list string :=
  [ os_path_join parent_dir ["share"; "lios"];
    os_path_join user_home_path [".local"; "share"; "lios"];
    "/usr/share/lios";
    "/usr/local/share/lios" ].

(** The resource paths are the ones under [datadir]. *)
Definition consistent (g : resources) : Prop :=
  g = resources_under (datadir g) (os_path_join (datadir g) ["lios.png"]).

End Macros.

(** A file system with a source tree under [/opt/lios] and an installation
    under [/srv/lios]. *)
Module DemoFiles.

Definition files : list string :=
  ["/opt/lios/share/lios/lios.png"; "/srv/lios/lios.png"].

Definition os_path_exists (path : string) : bool := bool_decide (path ∈ files).

End DemoFiles.

(** * Properties of [MultiprocessingCompatibility] *)

(** One goal per path through [initialize]: the early return, then, with
    the workaround needed, each way [set_start_method] can end and the case
    of [fork] already active, then the case of no workaround. The tests are
    kept as [Hearly], [Hneeds], [Hother], [Hset] and [Hmsg]. *)
Ltac initialize_branches w force :=
  unfold initialize, result_of, process_after, get_python_version_info;
  destruct (_initialized w && negb force) eqn:Hearly;
  [| cbv beta iota zeta;
     destruct (needs_fork_workaround w) eqn:Hneeds;
     [ destruct (negb (bool_decide
                         (get_start_method (multiprocessing w) = Some "fork")))
         eqn:Hother;
       [ let e := fresh "e" in
         let r := fresh "r" in
         destruct (set_start_method "fork" force (multiprocessing w))
           as [[[e | e | e] |] r] eqn:Hset;
         [ destruct (contains "context has already been set" e && negb force)
             eqn:Hmsg
         | | | ]
       | ]
     | ] ].

Section AnyMultiprocessing.
Context {R : Type} `{!Multiprocessing R}.

Lemma needs_fork_workaround_iff (w : process R) :
  needs_fork_workaround w = true <->
  3 < major (_python_version w) \/
  (major (_python_version w) = 3 /\ 14 <= minor (_python_version w)).
Proof.
  unfold needs_fork_workaround, get_python_version_info.
  rewrite orb_true_iff, andb_true_iff, Z.eqb_eq, Z.geb_le, Z.gtb_lt.
  tauto.
Qed.

(** Initialized and not forced: the early return. *)
Lemma initialize_early_return (verbose : bool) (w : process R) :
  _initialized w = true ->
  initialize false verbose w
  = (Returned true, w, say verbose "[mp_compat] Already initialized").
Proof. intros Hinit. unfold initialize. now rewrite Hinit. Qed.

(** No branch of [initialize] clears the flag. *)
Lemma initialize_keeps_flag (force verbose : bool) (w : process R) :
  _initialized w = true ->
  _initialized (process_after (initialize force verbose w)) = true.
Proof.
  intros Hinit. initialize_branches w force; cbn [fst snd]; auto.
Qed.

(** Neither does any call a client can make. *)
Lemma mp_step_keeps_flag (c : mp_call) (w : process R) :
  _initialized w = true -> _initialized (mp_step c w) = true.
Proof.
  destruct c as [force verbose |]; cbn; [apply initialize_keeps_flag | done].
Qed.

(** The version is a constant of the process. *)
Lemma initialize_keeps_version (force verbose : bool) (w : process R) :
  _python_version (process_after (initialize force verbose w)) = _python_version w.
Proof.
  initialize_branches w force; reflexivity.
Qed.

(** Without the workaround [initialize] never calls into
    [multiprocessing]. *)
Lemma initialize_no_workaround (force verbose : bool) (w : process R) :
  needs_fork_workaround w = false ->
  result_of (initialize force verbose w) = Returned true /\
  multiprocessing (process_after (initialize force verbose w)) = multiprocessing w.
Proof.
  intros Hno. unfold initialize, result_of, process_after, get_python_version_info.
  destruct (_initialized w && negb force); [done |].
  cbv beta iota zeta. now rewrite Hno.
Qed.

Lemma compatible_iff (w : process R) :
  compatible (get_status w) = true <->
  needs_fork_workaround w = false \/
  get_start_method (multiprocessing w) = Some "fork".
Proof.
  unfold get_status, get_python_version_info. cbn [compatible].
  destruct (needs_fork_workaround w).
  - rewrite bool_decide_eq_true. split; [now right | now intros [? | ?]].
  - split; [now left | reflexivity].
Qed.

(** C4. [needs_fork_workaround] is true exactly for the versions at or
    above 3.14, any major version above 3 included; and under version
    (3,13,0) the process after [initialize], forced or not, reports
    [needs_workaround = false] and [compatible = true], the call returns
    [True], and the state of [multiprocessing] is the one before the
    call. *)
Theorem needs_fork_workaround_spec (force verbose : bool) (w : process R) :
  (needs_fork_workaround w = true <->
   3 < major (_python_version w) \/
   (major (_python_version w) = 3 /\ 14 <= minor (_python_version w))) /\
  (get_python_version_info w = (3, 13, 0) ->
   let w' := process_after (initialize force verbose w) in
   result_of (initialize force verbose w) = Returned true /\
   needs_workaround (get_status w') = false /\
   compatible (get_status w') = true /\
   multiprocessing w' = multiprocessing w).
Proof.
  split; [apply needs_fork_workaround_iff |].
  intros Hv w'.
  assert (Hno : needs_fork_workaround w = false).
  { unfold needs_fork_workaround. now rewrite Hv. }
  assert (Hno' : needs_fork_workaround w' = false).
  { unfold needs_fork_workaround, get_python_version_info, w' in *.
    now rewrite initialize_keeps_version. }
  destruct (initialize_no_workaround force verbose w Hno) as [Hret Hmp].
  repeat split; [exact Hret | | | exact Hmp].
  - unfold get_status. cbn. exact Hno'.
  - apply compatible_iff. now left.
Qed.

(** C10. Once the flag is set it stays set through every later run of
    [initialize] calls (forced or not, whatever they return or raise) and
    [get_status] calls, and [get_status] reports [initialized = True]
    after the run. *)
Theorem initialized_monotone (cs : list mp_call) (w : process R) :
  _initialized w = true ->
  _initialized (mp_run cs w) = true /\
  initialized (get_status (mp_run cs w)) = true.
Proof.
  intros Hinit.
  assert (Hrun : _initialized (mp_run cs w) = true).
  { revert w Hinit. induction cs as [| c cs IH]; intros w Hinit; [exact Hinit |].
    cbn. apply IH. now apply mp_step_keeps_flag. }
  split; [exact Hrun |]. unfold get_status. cbn. exact Hrun.
Qed.

End AnyMultiprocessing.

(** ** On CPython's [multiprocessing] *)

Section CPython.
Implicit Types (w : process default_context) (c : default_context).

(** [set_start_method] raises a [RuntimeError] only for a method that is
    already fixed, with the message [initialize] looks for. *)
Lemma cpython_runtime_error (method : string) (force : bool) c (msg : string) c' :
  cpython_set_start_method method force c = (Some (RuntimeError msg), c') ->
  msg = "context has already been set" /\ force = false /\ c' = c.
Proof.
  unfold cpython_set_start_method.
  destruct (bool_decide (_actual_context c <> None) && negb force) eqn:Hset.
  - intros [= <- <-]. apply andb_true_iff in Hset as [_ Hf].
    now destruct force.
  - destruct (bool_decide (method ∈ _concrete_contexts c)); intros [=].
Qed.

(** Any other exception leaves the module as it was. *)
Lemma cpython_raise_keeps_state (method : string) (force : bool) c (e : exn) c' :
  cpython_set_start_method method force c = (Some e, c') -> c' = c.
Proof.
  unfold cpython_set_start_method.
  destruct (bool_decide (_actual_context c <> None) && negb force).
  - now intros [= _ <-].
  - destruct (bool_decide (method ∈ _concrete_contexts c));
      [discriminate | now intros [= _ <-]].
Qed.

(** Unforced, on a module whose start method is fixed, it raises. *)
Lemma cpython_set_when_fixed (method : string) c (m : string) :
  _actual_context c = Some m ->
  set_start_method method false c
  = (Some (RuntimeError "context has already been set"), c).
Proof.
  intros Hm. cbn. unfold cpython_set_start_method.
  rewrite Hm. now rewrite bool_decide_eq_true_2.
Qed.

Lemma with_multiprocessing_same w :
  with_multiprocessing (multiprocessing w) w = w.
Proof. now destruct w. Qed.

(** An unforced [initialize] either leaves the process initialized or
    leaves it untouched (when [fork] does not exist on the platform). *)
Lemma cpython_initialize_settles (verbose : bool) w :
  _initialized (process_after (initialize false verbose w)) = true \/
  process_after (initialize false verbose w) = w.
Proof.
  initialize_branches w false; cbn [fst snd]; auto.
  - apply cpython_runtime_error in Hset as (-> & _ & _). discriminate.
  - apply cpython_raise_keeps_state in Hset as ->.
    right. apply with_multiprocessing_same.
  - apply cpython_raise_keeps_state in Hset as ->.
    right. apply with_multiprocessing_same.
Qed.

Lemma cpython_initialize_twice (verbose : bool) w :
  process_after (initialize false verbose (process_after (initialize false verbose w)))
  = process_after (initialize false verbose w).
Proof.
  destruct (cpython_initialize_settles verbose w) as [Hinit | Hsame].
  - now rewrite (initialize_early_return verbose _ Hinit).
  - now rewrite !Hsame.
Qed.

Lemma cpython_initialize_times (n : nat) (verbose : bool) w :
  initialize_times (S n) false verbose w
  = process_after (initialize false verbose w).
Proof.
  cbn [initialize_times].
  induction n as [| n IH]; [reflexivity |].
  cbn [initialize_times]. now rewrite cpython_initialize_twice.
Qed.

(** C2. On CPython, [N >= 1] calls of [initialize()] without force leave
    the process, and so [get_status()], as one call does; and in an
    initialized process an unforced [initialize()] returns [True] with the
    process unchanged. *)
Theorem initialize_idempotent (N : nat) (verbose : bool) w :
  (1 <= N)%nat ->
  get_status (initialize_times N false verbose w)
  = get_status (initialize_times 1 false verbose w) /\
  initialize_times N false verbose w = initialize_times 1 false verbose w /\
  (_initialized w = true ->
   result_of (initialize false verbose w) = Returned true /\
   process_after (initialize false verbose w) = w).
Proof.
  intros HN. destruct N as [| n]; [lia |].
  rewrite !cpython_initialize_times.
  split; [reflexivity |]. split; [reflexivity |].
  intros Hinit. now rewrite (initialize_early_return verbose w Hinit).
Qed.

(** C3. Under version (3,14,0) with the start method already fixed to
    something other than [fork], an unforced [initialize()] returns [True]
    (it does not raise), the process is initialized afterwards with the
    start method as it was, and [get_status()] reports
    [compatible = False]; [compatible] is [True] exactly when no workaround
    is needed or [fork] is the active start method. *)
Theorem scenario_c_soft_success (verbose : bool) w (m : string) :
  get_python_version_info w = (3, 14, 0) ->
  _actual_context (multiprocessing w) = Some m ->
  m <> "fork" ->
  let w' := process_after (initialize false verbose w) in
  result_of (initialize false verbose w) = Returned true /\
  _initialized w' = true /\
  multiprocessing w' = multiprocessing w /\
  compatible (get_status w') = false /\
  (forall w0,
      compatible (get_status w0) = true <->
      needs_fork_workaround w0 = false \/
      get_start_method (multiprocessing w0) = Some "fork").
Proof.
  intros Hv Hm Hne w'.
  assert (Hwork : needs_fork_workaround w = true).
  { unfold needs_fork_workaround. now rewrite Hv. }
  assert (Hcur : get_start_method (multiprocessing w) <> Some "fork").
  { cbn. unfold cpython_get_start_method. rewrite Hm. congruence. }
  assert (Hret : result_of (initialize false verbose w) = Returned true /\
                 _initialized w' = true /\
                 multiprocessing w' = multiprocessing w).
  { subst w'. initialize_branches w false; cbn [fst snd];
      try (rewrite (cpython_set_when_fixed "fork" _ m Hm) in Hset; simplify_eq).
    - apply andb_true_iff in Hearly as [Hflag _]. done.
    - done.
    - rewrite negb_false_iff, bool_decide_eq_true in Hother. done.
    - congruence. }
  destruct Hret as (Hr & Hi & Hmp).
  repeat split; try done.
  - destruct (compatible (get_status w')) eqn:Hc; [| reflexivity].
    apply compatible_iff in Hc as [Hno | Hfork].
    + unfold needs_fork_workaround, get_python_version_info, w' in Hno.
      rewrite initialize_keeps_version in Hno.
      unfold needs_fork_workaround, get_python_version_info in Hwork.
      congruence.
    + rewrite Hmp in Hfork. done.
  - apply compatible_iff.
  - apply compatible_iff.
Qed.

End CPython.

(** * Properties of [OcrEngineBase] *)

Section EngineBase.
Context {P : Type} `{!OcrEngine P}.
Implicit Types (self : instance) (L : string).

Lemma set_language_valid self L :
  L ∈ get_available_languages ->
  set_language self L = (true, <["language" := PyStr L]> self).
Proof. intros HL. unfold set_language. now rewrite bool_decide_eq_true_2. Qed.

Lemma set_language_invalid self L :
  L ∉ get_available_languages -> set_language self L = (false, self).
Proof. intros HL. unfold set_language. now rewrite bool_decide_eq_false_2. Qed.

Lemma set_language_2_valid self L :
  L ∈ get_available_languages ->
  set_language_2 self L = (true, <["language_2" := PyStr L]> self).
Proof. intros HL. unfold set_language_2. now rewrite bool_decide_eq_true_2. Qed.

Lemma set_language_2_invalid self L :
  L ∉ get_available_languages ->
  set_language_2 self L = (false, <["language_2" := PyBool false]> self).
Proof. intros HL. unfold set_language_2. now rewrite bool_decide_eq_false_2. Qed.

Lemma set_language_3_valid self L :
  L ∈ get_available_languages ->
  set_language_3 self L = (true, <["language_3" := PyStr L]> self).
Proof. intros HL. unfold set_language_3. now rewrite bool_decide_eq_true_2. Qed.

Lemma set_language_3_invalid self L :
  L ∉ get_available_languages ->
  set_language_3 self L = (false, <["language_3" := PyBool false]> self).
Proof. intros HL. unfold set_language_3. now rewrite bool_decide_eq_false_2. Qed.

(** C1. [set_language(L)] returns [True] exactly when [L] is among
    [get_available_languages()], and when it returns [True] the attribute
    [language] holds [L] afterwards. *)
Theorem set_language_iff self L :
  ((set_language self L).1 = true <-> L ∈ get_available_languages) /\
  ((set_language self L).1 = true ->
   (set_language self L).2 !! "language" = Some (PyStr L)).
Proof.
  destruct (decide (L ∈ get_available_languages)) as [Hin | Hout].
  - rewrite (set_language_valid self L Hin). cbn [fst snd].
    split; [done |]. intros _. apply lookup_insert_eq.
  - rewrite (set_language_invalid self L Hout). cbn [fst snd].
    split; [split; [discriminate | done] | discriminate].
Qed.

(** C7. For an unsupported language [set_language] returns [False] and the
    object is exactly the one before the call. *)
Theorem set_language_invalid_frame self L :
  L ∉ get_available_languages ->
  (set_language self L).1 = false /\ (set_language self L).2 = self.
Proof. intros Hout. now rewrite (set_language_invalid self L Hout). Qed.

(** C6. For an unsupported language [set_language_2] returns [False] and
    leaves [language_2] holding [False], whatever it held before, and
    [set_language_3] does the same with [language_3]. *)
Theorem set_language_2_3_invalid self L :
  L ∉ get_available_languages ->
  ((set_language_2 self L).1 = false /\
   (set_language_2 self L).2 !! "language_2" = Some (PyBool false) /\
   (forall prev, (set_language_2 self L).2 !! "language_2" <> Some (PyStr prev))) /\
  ((set_language_3 self L).1 = false /\
   (set_language_3 self L).2 !! "language_3" = Some (PyBool false) /\
   (forall prev, (set_language_3 self L).2 !! "language_3" <> Some (PyStr prev))).
Proof.
  intros Hout.
  rewrite (set_language_2_invalid self L Hout), (set_language_3_invalid self L Hout).
  cbn [fst snd]. rewrite !lookup_insert_eq.
  repeat split; discriminate.
Qed.

(** C9, as the code has it: [cancel] is defined without a [self]
    parameter, so the call on an instance raises [TypeError] before the
    body runs. *)
Theorem cancel_on_instance_raises self :
  (cancel self).1
  = Raised (TypeError
      "OcrEngineBase.cancel() takes 0 positional arguments but 1 was given") /\
  (cancel self).2 = self.
Proof. split; reflexivity. Qed.

(** Called on the class, without an instance, the same function returns. *)
Lemma cancel_on_class_returns :
  call_def "OcrEngineBase.cancel" [] 0 (Returned PyNone) = Returned PyNone.
Proof. reflexivity. Qed.

End EngineBase.

(** ** The slots along a run of calls *)

Section SlotInvariant.
Context {P : Type} `{!OcrEngine P}.
Implicit Types (self : instance) (L : string) (language : pyval).









End SlotInvariant.

(** ** The parallel entry point *)

Section Facade.
Context {R : Type} `{!Multiprocessing R} `{!OcrEngine (process R)}.

(** C5. In a process whose status reports [compatible = False], the
    parallel entry point gives exactly what [ocr_image_to_text] gives on the
    same object, file and process: the same outcome, the same object and the
    same process afterwards, so nothing is run besides that one call. *)
Theorem facade_runs_inline (self : instance) (image_file_name : string)
    (w : process R) :
  compatible (get_status w) = false ->
  ocr_image_to_text_with_multiprocessing self image_file_name w
  = ocr_image_to_text self image_file_name w.
Proof. intros _. reflexivity. Qed.

End Facade.

(** * The theorems at concrete processes and objects *)

Section Instances.
Import Demo.

Lemma initialize_idempotent_witness :
  get_status (initialize_times 3 false false (posix py_3_14_0 (Some "spawn")))
  = get_status (initialize_times 1 false false (posix py_3_14_0 (Some "spawn"))) /\
  process_after
    (initialize false false
       (initialize_times 1 false false (posix py_3_14_0 None)))
  = initialize_times 1 false false (posix py_3_14_0 None).
Proof.
  split.
  - apply (initialize_idempotent 3 false (posix py_3_14_0 (Some "spawn"))). lia.
  - apply (initialize_idempotent 1 false
             (initialize_times 1 false false (posix py_3_14_0 None)));
      [lia | reflexivity].
Defined.

Lemma scenario_c_soft_success_witness :
  result_of (initialize false false (posix py_3_14_0 (Some "spawn")))
  = Returned true /\
  compatible
    (get_status
       (process_after (initialize false false (posix py_3_14_0 (Some "spawn")))))
  = false.
Proof.
  destruct (scenario_c_soft_success false (posix py_3_14_0 (Some "spawn")) "spawn")
    as (Hret & _ & _ & Hcompat & _);
    [reflexivity | reflexivity | discriminate |].
  split; [exact Hret | exact Hcompat].
Defined.

Lemma needs_fork_workaround_spec_witness :
  needs_workaround
    (get_status (process_after (initialize true false (posix py_3_13_0 None))))
  = false /\
  multiprocessing (process_after (initialize true false (posix py_3_13_0 None)))
  = multiprocessing (posix py_3_13_0 None).
Proof.
  destruct (needs_fork_workaround_spec true false (posix py_3_13_0 None))
    as [_ Hscenario].
  destruct (Hscenario eq_refl) as (_ & Hneeds & _ & Hmp).
  split; [exact Hneeds | exact Hmp].
Defined.

(** A forced [initialize] that returns [False] keeps the flag. *)
Lemma initialized_monotone_witness :
  result_of (initialize (Multiprocessing0 := sealed_mp) true false sealed_process)
  = Returned false /\
  initialized
    (get_status (Multiprocessing0 := sealed_mp)
       (mp_run (Multiprocessing0 := sealed_mp)
          [Initialize true false; GetStatus; Initialize false true]
          sealed_process))
  = true.
Proof.
  split; [reflexivity |].
  apply (initialized_monotone (Multiprocessing0 := sealed_mp)
           [Initialize true false; GetStatus; Initialize false true]
           sealed_process).
  reflexivity.
Defined.

Lemma set_language_iff_witness :
  (set_language (OcrEngine0 := echo_engine) (__init__ PyNone) "mal").2
    !! "language"
  = Some (PyStr "mal").
Proof.
  apply (set_language_iff (OcrEngine0 := echo_engine) (__init__ PyNone) "mal").
  reflexivity.
Defined.

Lemma set_language_invalid_frame_witness :
  (set_language (OcrEngine0 := echo_engine) (__init__ (PyStr "eng")) "xx").2
  = __init__ (PyStr "eng").
Proof.
  apply (set_language_invalid_frame (OcrEngine0 := echo_engine)
           (__init__ (PyStr "eng")) "xx").
  refine (proj1 (bool_decide_eq_false _) _). reflexivity.
Defined.

(** Scenario D: slot 2 held "mal" before the failed selection. *)
Lemma set_language_2_3_invalid_witness :
  (set_language_2 (OcrEngine0 := echo_engine)
     (set_language_2 (OcrEngine0 := echo_engine) (__init__ PyNone) "mal").2
     "xx").2 !! "language_2"
  = Some (PyBool false).
Proof.
  apply (set_language_2_3_invalid (OcrEngine0 := echo_engine)
           (set_language_2 (OcrEngine0 := echo_engine) (__init__ PyNone) "mal").2
           "xx").
  refine (proj1 (bool_decide_eq_false _) _). reflexivity.
Defined.

(** The process reports [compatible = False]; the entry point returns the
    text and leaves the process as it was. *)
Lemma facade_runs_inline_witness :
  ocr_image_to_text_with_multiprocessing (OcrEngine0 := echo_engine)
    (__init__ (PyStr "eng")) "page.png"
    (process_after (initialize false false (posix py_3_14_0 (Some "spawn"))))
  = (Returned "text of page.png", __init__ (PyStr "eng"),
     process_after (initialize false false (posix py_3_14_0 (Some "spawn")))).
Proof.
  rewrite (facade_runs_inline (OcrEngine0 := echo_engine)
             (__init__ (PyStr "eng")) "page.png"
             (process_after (initialize false false (posix py_3_14_0 (Some "spawn")))));
    reflexivity.
Defined.


(** Nor does the constructor check its argument. *)
Lemma constructor_accepts_unsupported :
  ~ holds_only_supported (OcrEngine0 := echo_engine) (__init__ (PyStr "xx")).
Proof.
  intros Hsup. specialize (Hsup Primary "xx" (lookup_insert_eq _ _ _)).
  assert (Hout : "xx" ∉ get_available_languages (OcrEngine := echo_engine)).
  { refine (proj1 (bool_decide_eq_false _) _). reflexivity. }
  exact (Hout Hsup).
Qed.


End Instances.

(** * Further properties of [MultiprocessingCompatibility] *)

Section InitializeAnywhere.
Context {R : Type} `{!Multiprocessing R}.

(** [initialize] reports success only with the flag set, and a call that
    returns [False] or raises leaves the flag as it found it. *)
Theorem initialize_result_and_flag (force verbose : bool) (w : process R) :
  (result_of (initialize force verbose w) = Returned true ->
   _initialized (process_after (initialize force verbose w)) = true) /\
  (result_of (initialize force verbose w) <> Returned true ->
   _initialized (process_after (initialize force verbose w)) = _initialized w).
Proof.
  initialize_branches w force; cbn [fst snd]; split; try done.
  apply andb_true_iff in Hearly as [Hflag _]. done.
Qed.

(** [verbose] decides only what is printed: outcome and process are the
    same with and without it, a quiet call prints nothing, and a verbose call
    prints at least one line. *)
Theorem verbose_only_prints (force : bool) (w : process R) :
  result_of (initialize force true w) = result_of (initialize force false w) /\
  process_after (initialize force true w) = process_after (initialize force false w) /\
  printed (initialize force false w) = [] /\
  printed (initialize force true w) <> [].
Proof.
  unfold initialize, result_of, process_after, printed, get_python_version_info.
  destruct (_initialized w && negb force); [done |].
  cbv beta iota zeta.
  destruct (needs_fork_workaround w); [| done].
  destruct (negb _); [| done].
  destruct (set_start_method _ _ _) as [[[e | e | e] |] r];
    try destruct (contains _ _ && _); done.
Qed.

(** When [initialize] is the early return, or the version needs no
    workaround, or [fork] is already the active method, it returns [True]
    and the state of [multiprocessing] after the call is the one before
    it. *)
Theorem initialize_leaves_start_method (force verbose : bool) (w : process R) :
  _initialized w && negb force = true \/
  needs_fork_workaround w = false \/
  get_start_method (multiprocessing w) = Some "fork" ->
  result_of (initialize force verbose w) = Returned true /\
  multiprocessing (process_after (initialize force verbose w)) = multiprocessing w.
Proof.
  intros Hcase.
  initialize_branches w force; cbn [fst snd]; try done;
    destruct Hcase as [Hc | [Hc | Hc]]; try congruence;
    rewrite negb_true_iff, bool_decide_eq_false in Hother; done.
Qed.

(** Along any run of [initialize] and [get_status] calls the version and the
    [needs_workaround] answer that [get_status] reports never change. *)
Theorem status_version_constant (cs : list mp_call) (w : process R) :
  python_version_tuple (get_status (mp_run cs w))
  = python_version_tuple (get_status w) /\
  python_version (get_status (mp_run cs w)) = python_version (get_status w) /\
  needs_workaround (get_status (mp_run cs w)) = needs_workaround (get_status w).
Proof.
  assert (Hv : _python_version (mp_run cs w) = _python_version w).
  { revert w. induction cs as [| c cs IH]; intros w; [reflexivity |].
    change (mp_run (c :: cs) w) with (mp_run cs (mp_step c w)).
    rewrite IH. destruct c as [force verbose |]; [| reflexivity].
    apply initialize_keeps_version. }
  unfold get_status, needs_fork_workaround, get_python_version_info.
  cbn [python_version_tuple python_version needs_workaround]. now rewrite Hv.
Qed.

End InitializeAnywhere.

Section InitializeOnCPython.
Implicit Types (w : process default_context) (c : default_context).

Lemma cpython_set_succeeds (method : string) (force : bool) c :
  _actual_context c = None \/ force = true ->
  method ∈ _concrete_contexts c ->
  set_start_method method force c
  = (None, {| _actual_context := Some method;
              _concrete_contexts := _concrete_contexts c |}).
Proof.
  intros Hfree Hin. cbn. unfold cpython_set_start_method.
  rewrite (bool_decide_eq_true_2 _ Hin).
  destruct Hfree as [-> | ->]; [reflexivity |].
  now rewrite andb_false_r.
Qed.

Lemma cpython_set_unavailable (method : string) (force : bool) c :
  _actual_context c = None \/ force = true ->
  method ∉ _concrete_contexts c ->
  set_start_method method force c
  = (Some (ValueError ("cannot find context for '" +:+ method +:+ "'")), c).
Proof.
  intros Hfree Hout. cbn. unfold cpython_set_start_method.
  rewrite (bool_decide_eq_false_2 _ Hout).
  destruct Hfree as [-> | ->]; [reflexivity |].
  now rewrite andb_false_r.
Qed.

(** Unforced, [initialize] cannot move a start method that is fixed. *)
Lemma cpython_unforced_keeps_fixed (verbose : bool) w (m : string) :
  _actual_context (multiprocessing w) = Some m ->
  multiprocessing (process_after (initialize false verbose w)) = multiprocessing w.
Proof.
  intros Hm.
  initialize_branches w false; cbn [fst snd];
    try (rewrite (cpython_set_when_fixed "fork" _ m Hm) in Hset; simplify_eq);
    done.
Qed.

(** An unforced call on CPython returns [True] with the flag set, or raises
    and leaves the process alone. *)
Lemma cpython_unforced_outcome (verbose : bool) w :
  (result_of (initialize false verbose w) = Returned true /\
   _initialized (process_after (initialize false verbose w)) = true) \/
  (exists e, result_of (initialize false verbose w) = Raised e /\
             process_after (initialize false verbose w) = w).
Proof.
  initialize_branches w false; cbn [fst snd]; auto.
  - left. apply andb_true_iff in Hearly as [Hflag _]. auto.
  - apply cpython_runtime_error in Hset as (-> & _ & _). discriminate.
  - right. exists (ValueError e).
    apply cpython_raise_keeps_state in Hset as ->.
    split; [reflexivity | apply with_multiprocessing_same].
  - right. exists (TypeError e).
    apply cpython_raise_keeps_state in Hset as ->.
    split; [reflexivity | apply with_multiprocessing_same].
Qed.

(** The first call with the workaround needed and no start method fixed:
    [fork] is chosen where the platform has it, and the call raises where it
    has not. *)
Lemma cpython_first_unset (verbose : bool) w :
  _initialized w = false ->
  needs_fork_workaround w = true ->
  _actual_context (multiprocessing w) = None ->
  if bool_decide ("fork" ∈ _concrete_contexts (multiprocessing w))
  then get_start_method (multiprocessing (process_after (initialize false verbose w)))
       = Some "fork"
  else raises (result_of (initialize false verbose w)) = true.
Proof.
  intros Hfresh Hwork Hnone.
  assert (Hfree : _actual_context (multiprocessing w) = None \/ false = true)
    by now left.
  case_bool_decide as Hin;
    initialize_branches w false; cbn [fst snd raises];
    try (rewrite (cpython_set_succeeds "fork" false _ Hfree Hin) in Hset;
         simplify_eq);
    try (rewrite (cpython_set_unavailable "fork" false _ Hfree Hin) in Hset;
         simplify_eq);
    try done; try congruence.
  - rewrite Hfresh in Hearly. discriminate.
  - rewrite negb_false_iff, bool_decide_eq_true in Hother. done.
  - rewrite Hfresh in Hearly. discriminate.
  - rewrite negb_false_iff, bool_decide_eq_true in Hother.
    cbn in Hother. unfold cpython_get_start_method in Hother. congruence.
Qed.

(** Where the workaround is needed and the platform offers [fork], a call
    that is not the early return and is free to choose (no start method
    fixed yet, or [force]) ends with [fork] active: it returns [True], sets
    the flag and [get_status] reports [compatible = True]. *)
Theorem initialize_selects_fork (force verbose : bool) w :
  needs_fork_workaround w = true ->
  "fork" ∈ _concrete_contexts (multiprocessing w) ->
  _initialized w = false \/ force = true ->
  _actual_context (multiprocessing w) = None \/ force = true ->
  let w' := process_after (initialize force verbose w) in
  result_of (initialize force verbose w) = Returned true /\
  _initialized w' = true /\
  get_start_method (multiprocessing w') = Some "fork" /\
  current_start_method (get_status w') = Some "fork" /\
  compatible (get_status w') = true.
Proof.
  intros Hwork Hfork Hlate Hfree w'.
  assert (Hmain : result_of (initialize force verbose w) = Returned true /\
                  _initialized w' = true /\
                  get_start_method (multiprocessing w') = Some "fork").
  { subst w'. initialize_branches w force; cbn [fst snd];
      try (rewrite (cpython_set_succeeds "fork" force _ Hfree Hfork) in Hset;
           simplify_eq); try done.
    - apply andb_true_iff in Hearly as [Hflag Hforce].
      destruct Hlate as [Hl | ->]; [congruence | discriminate].
    - rewrite negb_false_iff, bool_decide_eq_true in Hother. done. }
  destruct Hmain as (Hret & Hflag & Hmethod).
  repeat split; try done.
  apply compatible_iff. now right.
Qed.

(** On CPython [initialize] never returns [False]. It raises exactly when
    it is not the early return, the workaround is needed, [fork] is not the
    active method, the call is free to choose, and the platform has no
    [fork]; the exception is the [ValueError] of [set_start_method], and the
    process is left as it was. *)
Theorem initialize_raises_iff (force verbose : bool) w :
  result_of (initialize force verbose w) <> Returned false /\
  (raises (result_of (initialize force verbose w)) = true <->
   _initialized w && negb force = false /\
   needs_fork_workaround w = true /\
   _actual_context (multiprocessing w) <> Some "fork" /\
   (_actual_context (multiprocessing w) = None \/ force = true) /\
   "fork" ∉ _concrete_contexts (multiprocessing w)) /\
  (raises (result_of (initialize force verbose w)) = true ->
   result_of (initialize force verbose w)
   = Raised (ValueError "cannot find context for 'fork'") /\
   process_after (initialize force verbose w) = w).
Proof.
  assert (Hfree : forall b : bool,
             bool_decide (_actual_context (multiprocessing w) <> None) && negb force = b ->
             b = false <-> (_actual_context (multiprocessing w) = None \/ force = true)).
  { intros b <-. destruct (_actual_context (multiprocessing w)), force; cbn;
      rewrite ?bool_decide_eq_true_2, ?bool_decide_eq_false_2 by done; cbn;
      intuition congruence. }
  initialize_branches w force; cbn [fst snd raises];
    try (split; [done |]; split; [| done]; split; [done |];
         intros (? & ? & ? & ? & ?); congruence).
  - (* the handler took the message: not raised, and the method was fixed *)
    split; [done |]. split; [| done]. split; [done |].
    intros (_ & _ & _ & Hfr & _).
    destruct (decide ("fork" ∈ _concrete_contexts (multiprocessing w)))
      as [Hin | Hout].
    + rewrite (cpython_set_succeeds "fork" force _ Hfr Hin) in Hset. discriminate.
    + rewrite (cpython_set_unavailable "fork" force _ Hfr Hout) in Hset.
      discriminate.
  - apply cpython_runtime_error in Hset as (-> & -> & _). discriminate.
  - (* ValueError *)
    split; [done |].
    assert (Hfr : _actual_context (multiprocessing w) = None \/ force = true).
    { destruct (bool_decide (_actual_context (multiprocessing w) <> None)
                && negb force) eqn:Hfixed; [| now apply (Hfree false)].
      exfalso. revert Hset. cbn. unfold cpython_set_start_method.
      rewrite Hfixed. intros [=]. }
    destruct (decide ("fork" ∈ _concrete_contexts (multiprocessing w)))
      as [Hin | Hout].
    + rewrite (cpython_set_succeeds "fork" force _ Hfr Hin) in Hset. discriminate.
    + rewrite (cpython_set_unavailable "fork" force _ Hfr Hout) in Hset.
      injection Hset as <- <-.
      rewrite negb_true_iff, bool_decide_eq_false in Hother.
      split; [split; [intros _; repeat split; done | done] |].
      intros _. split; [reflexivity | apply with_multiprocessing_same].
  - (* TypeError does not occur *)
    exfalso. revert Hset. cbn. unfold cpython_set_start_method.
    destruct (bool_decide (_actual_context (multiprocessing w) <> None)
              && negb force); [intros [=] |].
    destruct (bool_decide ("fork" ∈ _concrete_contexts (multiprocessing w)));
      intros [=].
  - (* set_start_method returned *)
    split; [done |]. split; [| done]. split; [done |].
    intros (_ & _ & _ & Hfr & Hout).
    rewrite (cpython_set_unavailable "fork" force _ Hfr Hout) in Hset. discriminate.
  - split; [done |]. split; [| done]. split; [done |].
    intros (_ & _ & Hnot & _).
    rewrite negb_false_iff, bool_decide_eq_true in Hother. done.
Qed.

(** The first [initialize()] of a process, when it returns, leaves the
    status incompatible exactly when the workaround is needed and a start
    method other than [fork] had been fixed before the call. *)
Theorem first_initialize_compatibility (verbose : bool) w :
  _initialized w = false ->
  raises (result_of (initialize false verbose w)) = false ->
  compatible (get_status (process_after (initialize false verbose w))) = false <->
  needs_fork_workaround w = true /\
  exists m, _actual_context (multiprocessing w) = Some m /\ m <> "fork".
Proof.
  intros Hfresh Hreturns.
  set (w' := process_after (initialize false verbose w)).
  assert (Hneeds' : needs_fork_workaround w' = needs_fork_workaround w).
  { unfold needs_fork_workaround, get_python_version_info, w'.
    now rewrite initialize_keeps_version. }
  rewrite <- not_true_iff_false, compatible_iff, Hneeds'.
  destruct (needs_fork_workaround w) eqn:Hwork.
  - destruct (_actual_context (multiprocessing w)) as [m |] eqn:Hm.
    + pose proof (cpython_unforced_keeps_fixed verbose w m Hm) as Hmp.
      fold w' in Hmp. rewrite Hmp. cbn. unfold cpython_get_start_method.
      rewrite Hm. split.
      * intros Hn. split; [done |]. exists m. split; [done |].
        intros ->. apply Hn. now right.
      * intros (_ & m' & [= <-] & Hne) [[=] | [= ->]]. done.
    + pose proof (cpython_first_unset verbose w Hfresh Hwork Hm) as Hunset.
      case_bool_decide.
      * fold w' in Hunset. split; [| intros (_ & m & [=] & _)].
        intros Hn. exfalso. apply Hn. now right.
      * congruence.
  - split; [intros Hn; exfalso; apply Hn; now left |].
    intros ([=] & _).
Qed.

End InitializeOnCPython.

(** ** The decorator *)

Section Decorator.
Context {A B : Type}.
Implicit Types (w : process default_context)
  (func : A -> process default_context -> outcome B * process default_context).

(** What a decorated call comes to on CPython: [func] run in an
    initialized process that differs from the caller's at most by what
    [initialize()] did, or, when [initialize()] raised, that exception with
    the process untouched and [func] not run. On a process that is already
    initialized (as after a successful import of the module) the decorated
    function is [func] itself. *)
Theorem ensure_fork_context_runs_initialized func (args : A) w :
  ((exists w', _initialized w' = true /\
               w' = process_after (initialize false false w) /\
               ensure_fork_context func args w = func args w') \/
   (exists e, result_of (initialize false false w) = Raised e /\
              ensure_fork_context func args w = (Raised e, w))) /\
  (_initialized w = true -> ensure_fork_context func args w = func args w) /\
  (raises (result_of (import_mp_compat w)) = false ->
   ensure_fork_context func args (process_after (import_mp_compat w))
   = func args (process_after (import_mp_compat w))).
Proof.
  assert (Hdone : forall w0, _initialized w0 = true ->
                             ensure_fork_context func args w0 = func args w0).
  { intros w0 Hinit. unfold ensure_fork_context.
    now rewrite (initialize_early_return false w0 Hinit). }
  pose proof (cpython_unforced_outcome false w) as Hout.
  split; [| split; [apply Hdone |]].
  - unfold ensure_fork_context.
    destruct (initialize false false w) as [[r w'] out];
      unfold result_of, process_after in *; cbn [fst snd] in *.
    destruct Hout as [[-> Hflag] | (e & -> & ->)].
    + left. exists w'. auto.
    + right. exists e. auto.
  - intros Hreturns. apply Hdone. unfold import_mp_compat in *.
    destruct Hout as [[_ Hflag] | (e & He & _)]; [exact Hflag |].
    rewrite He in Hreturns. discriminate.
Qed.

(** Decorating twice is decorating once. *)
Theorem ensure_fork_context_twice func (args : A) w :
  ensure_fork_context (ensure_fork_context func) args w
  = ensure_fork_context func args w.
Proof.
  pose proof (cpython_unforced_outcome false w) as Hout.
  unfold ensure_fork_context at 1 3.
  destruct (initialize false false w) as [[r w'] out];
    unfold result_of, process_after in *; cbn [fst snd] in *.
  destruct Hout as [[-> Hflag] | (e & -> & ->)]; [| reflexivity].
  unfold ensure_fork_context.
  now rewrite (initialize_early_return false w' Hflag).
Qed.

End Decorator.

(** * Further properties of [OcrEngineBase] *)

Section Selections.
Context {P : Type} `{!OcrEngine P}.
Implicit Types (self : instance) (L : string) (s : slot) (language : pyval).

(** Each selection call in one equation. *)
Lemma select_unfold s self L :
  select s self L
  = if bool_decide (L ∈ get_available_languages)
    then (true, <[slot_attr s := PyStr L]> self)
    else (false, match s with
                 | Primary => self
                 | _ => <[slot_attr s := PyBool false]> self
                 end).
Proof. destruct s; reflexivity. Qed.

Lemma slot_attr_inj s s' : slot_attr s = slot_attr s' -> s = s'.
Proof. destruct s, s'; cbn; intros [=]; reflexivity. Qed.

(** [set_language_2] and [set_language_3] return [True] exactly for a
    supported language, and then their slot holds it. *)
Theorem set_language_2_3_iff self L :
  ((set_language_2 self L).1 = true <-> L ∈ get_available_languages) /\
  ((set_language_2 self L).1 = true ->
   (set_language_2 self L).2 !! "language_2" = Some (PyStr L)) /\
  ((set_language_3 self L).1 = true <-> L ∈ get_available_languages) /\
  ((set_language_3 self L).1 = true ->
   (set_language_3 self L).2 !! "language_3" = Some (PyStr L)).
Proof.
  destruct (decide (L ∈ get_available_languages)) as [Hin | Hout].
  - rewrite (set_language_2_valid self L Hin), (set_language_3_valid self L Hin).
    cbn [fst snd]. rewrite !lookup_insert_eq. done.
  - rewrite (set_language_2_invalid self L Hout),
      (set_language_3_invalid self L Hout).
    cbn [fst snd]. repeat split; done.
Qed.

Lemma select_other_attr s self L (attr : string) :
  attr <> slot_attr s -> (select s self L).2 !! attr = self !! attr.
Proof.
  intros Hne. rewrite select_unfold.
  case_bool_decide; cbn [snd]; [now rewrite lookup_insert_ne |].
  destruct s; [done | |]; now rewrite lookup_insert_ne.
Qed.

(** A selection call touches no attribute but its own slot, and what it
    returns does not depend on the object it is called on. *)
Theorem select_frame s self L (attr : string) :
  (attr <> slot_attr s -> (select s self L).2 !! attr = self !! attr) /\
  (forall self', (select s self' L).1 = (select s self L).1).
Proof.
  split; [apply select_other_attr |].
  intros self'. rewrite !select_unfold. now case_bool_decide.
Qed.

(** Selections on two different slots commute: either order leaves the same
    object and the same two return values. *)
Theorem select_commute s1 s2 self L1 L2 :
  s1 <> s2 ->
  (select s2 (select s1 self L1).2 L2).2 = (select s1 (select s2 self L2).2 L1).2 /\
  (select s2 (select s1 self L1).2 L2).1 = (select s2 self L2).1 /\
  (select s1 (select s2 self L2).2 L1).1 = (select s1 self L1).1.
Proof.
  intros Hne.
  assert (Hattr : slot_attr s2 <> slot_attr s1).
  { intros Heq. apply Hne. symmetry. now apply slot_attr_inj. }
  rewrite !select_unfold.
  destruct (bool_decide (L1 ∈ get_available_languages)),
    (bool_decide (L2 ∈ get_available_languages));
    cbn [fst snd]; (split; [| done]).
  - now apply insert_insert_ne.
  - destruct s2; [done | |]; now apply insert_insert_ne.
  - destruct s1; [done | |]; symmetry; now apply insert_insert_ne.
  - destruct s1, s2; try done; now apply insert_insert_ne.
Qed.

(** On one slot the later selection decides: it overwrites whatever an
    earlier selection on that slot left, except that a refused selection on
    the primary slot keeps what was there. *)
Theorem select_overwrites s self L1 L2 :
  (s <> Primary \/ L2 ∈ get_available_languages ->
   (select s (select s self L1).2 L2).2 = (select s self L2).2) /\
  (L2 ∉ get_available_languages ->
   (select Primary (select Primary self L1).2 L2).2 = (select Primary self L1).2).
Proof.
  split.
  - intros Hcase. rewrite !select_unfold.
    destruct (decide (L2 ∈ get_available_languages)) as [Hin | Hout].
    + rewrite !(bool_decide_eq_true_2 _ Hin). cbn [snd].
      case_bool_decide; cbn [snd]; [apply insert_insert_eq |].
      destruct s; [done | |]; apply insert_insert_eq.
    + rewrite !(bool_decide_eq_false_2 _ Hout). cbn [snd].
      destruct Hcase as [Hs | Hin]; [| done].
      destruct s; [done | |];
        case_bool_decide; cbn [snd]; apply insert_insert_eq.
  - intros Hout. cbn [select]. now rewrite set_language_invalid.
Qed.

Lemma engine_run_app (cs1 cs2 : list engine_call) self :
  engine_run (cs1 ++ cs2)%list self = engine_run cs2 (engine_run cs1 self).
Proof. apply fold_left_app. Qed.

Lemma engine_run_cons (c : engine_call) (cs : list engine_call) self :
  engine_run (c :: cs) self = engine_run cs (engine_step c self).
Proof. reflexivity. Qed.

(** Calls that are not supported primary selections leave [language]. *)
Lemma engine_run_keeps_primary (cs : list engine_call) self :
  Forall (fun c => selects_supported_primary c = false) cs ->
  engine_run cs self !! "language" = self !! "language".
Proof.
  intros Hcs. revert self.
  induction Hcs as [| c cs Hc _ IH]; intros self; [reflexivity |].
  rewrite engine_run_cons, IH.
  destruct c as [s L |]; [| reflexivity].
  cbn [engine_step]. rewrite select_unfold.
  destruct s; cbn in Hc; [rewrite Hc; reflexivity | |];
    case_bool_decide; cbn [snd]; now rewrite lookup_insert_ne.
Qed.

(** Calls that are not selections on [s] leave the attribute of [s]. *)
Lemma engine_run_keeps_slot s (cs : list engine_call) self :
  Forall (fun c => selects s c = false) cs ->
  engine_run cs self !! slot_attr s = self !! slot_attr s.
Proof.
  intros Hcs. revert self.
  induction Hcs as [| c cs Hc _ IH]; intros self; [reflexivity |].
  rewrite engine_run_cons, IH.
  destruct c as [s' L |]; [| reflexivity].
  cbn in Hc. apply bool_decide_eq_false in Hc.
  cbn [engine_step]. apply select_other_attr.
  intros Heq. apply Hc. symmetry. now apply slot_attr_inj.
Qed.

(** The primary slot after construction and a run of calls: the language of
    the last supported primary selection, and the constructor's argument
    when the run has none. *)
Theorem primary_slot_history language (cs : list engine_call) :
  (Forall (fun c => selects_supported_primary c = false) cs ->
   engine_run cs (__init__ language) !! "language" = Some language) /\
  (forall cs1 L cs2,
      cs = (cs1 ++ Select Primary L :: cs2)%list ->
      L ∈ get_available_languages ->
      Forall (fun c => selects_supported_primary c = false) cs2 ->
      engine_run cs (__init__ language) !! "language" = Some (PyStr L)).
Proof.
  split.
  - intros Hcs. rewrite (engine_run_keeps_primary cs _ Hcs).
    apply lookup_insert_eq.
  - intros cs1 L cs2 -> Hin Hcs2.
    rewrite engine_run_app, engine_run_cons, (engine_run_keeps_primary cs2 _ Hcs2).
    cbn [engine_step select]. rewrite (set_language_valid _ L Hin).
    apply lookup_insert_eq.
Qed.

(** Slots 2 and 3 after construction and a run of calls: absent as long as
    no selection was made on the slot, and otherwise what the last selection
    on the slot stored, the language when supported and [False] when not. *)
Theorem extra_slot_history s language (cs : list engine_call) :
  s <> Primary ->
  (Forall (fun c => selects s c = false) cs ->
   engine_run cs (__init__ language) !! slot_attr s = None) /\
  (forall cs1 L cs2,
      cs = (cs1 ++ Select s L :: cs2)%list ->
      Forall (fun c => selects s c = false) cs2 ->
      engine_run cs (__init__ language) !! slot_attr s = Some (stored L)).
Proof.
  intros Hs. split.
  - intros Hcs. rewrite (engine_run_keeps_slot s cs _ Hcs).
    unfold __init__. destruct s; [done | |]; now rewrite lookup_insert_ne.
  - intros cs1 L cs2 -> Hcs2.
    rewrite engine_run_app, engine_run_cons, (engine_run_keeps_slot s cs2 _ Hcs2).
    cbn [engine_step]. rewrite select_unfold. unfold stored.
    case_bool_decide; cbn [snd]; [apply lookup_insert_eq |].
    destruct s; [done | |]; apply lookup_insert_eq.
Qed.

(** The base class keeps to its three attributes: after construction and any
    run of calls [language] is present and nothing is present besides
    [language], [language_2] and [language_3]. *)
Theorem attributes_of_instance language (cs : list engine_call) (attr : string) :
  is_Some (engine_run cs (__init__ language) !! "language") /\
  (is_Some (engine_run cs (__init__ language) !! attr) ->
   attr = "language" \/ attr = "language_2" \/ attr = "language_3").
Proof.
  assert (Hinv : forall self,
             is_Some (self !! "language") /\
             (is_Some (self !! attr) ->
              attr = "language" \/ attr = "language_2" \/ attr = "language_3") ->
             is_Some (engine_run cs self !! "language") /\
             (is_Some (engine_run cs self !! attr) ->
              attr = "language" \/ attr = "language_2" \/ attr = "language_3")).
  { induction cs as [| c cs IH]; intros self Hself; [exact Hself |].
    rewrite engine_run_cons. apply IH.
    destruct c as [s L |]; [| exact Hself].
    destruct Hself as [Hlang Hattr].
    cbn [engine_step]. rewrite select_unfold.
    assert (Hins : forall v,
               is_Some (<[slot_attr s := v]> self !! "language") /\
               (is_Some (<[slot_attr s := v]> self !! attr) ->
                attr = "language" \/ attr = "language_2" \/ attr = "language_3")).
    { intros v. rewrite !lookup_insert_is_Some'. split; [now right |].
      intros [<- | Hold]; [| now apply Hattr].
      destruct s; cbn; auto. }
    case_bool_decide; cbn [snd]; [apply Hins |].
    destruct s; [done | apply Hins | apply Hins]. }
  apply Hinv. unfold __init__. rewrite !lookup_insert_is_Some'.
  split; [now left |].
  intros [<- | Hempty]; [now left |].
  rewrite lookup_empty in Hempty. now destruct Hempty.
Qed.

End Selections.

(** * Properties of [macros] *)

Section MixedCase.
Import Macros Strings.Ascii.
Implicit Types (c a : ascii) (s t : string) (l : list ascii).

Ltac each_char c := destruct c as [[] [] [] [] [] [] [] []].

Lemma lower_upper_char c : lower_char (upper_char c) = lower_char c.
Proof. each_char c; reflexivity. Qed.

Lemma upper_lower_char c : upper_char (lower_char c) = upper_char c.
Proof. each_char c; reflexivity. Qed.

Lemma lower_lower_char c : lower_char (lower_char c) = lower_char c.
Proof. each_char c; reflexivity. Qed.

(** A character is the capital or the small form of its own small form. *)
Lemma char_of_lower c : c = upper_char (lower_char c) \/ c = lower_char c.
Proof. each_char c; first [left; reflexivity | right; reflexivity]. Qed.

(** The two spellings of a letter differ. *)
Lemma letter_cases_differ c :
  is_lowercase c || is_uppercase c = true -> upper_char c <> lower_char c.
Proof. each_char c; cbn; (discriminate || (intros _; discriminate)). Qed.

Lemma variant_iff_lower a c :
  a = upper_char c \/ a = lower_char c <-> lower_char a = lower_char c.
Proof.
  split.
  - intros [-> | ->]; [apply lower_upper_char | apply lower_lower_char].
  - intros Heq. destruct (char_of_lower a) as [Ha | Ha]; rewrite Heq in Ha.
    + left. now rewrite upper_lower_char in Ha.
    + now right.
Qed.

Lemma list_of_upper s :
  String.list_ascii_of_string (upper s)
  = map upper_char (String.list_ascii_of_string s).
Proof. induction s as [| c s IH]; cbn; [reflexivity | now rewrite IH]. Qed.

Lemma list_of_lower s :
  String.list_ascii_of_string (lower s)
  = map lower_char (String.list_ascii_of_string s).
Proof. induction s as [| c s IH]; cbn; [reflexivity | now rewrite IH]. Qed.

Lemma list_of_string_inj s t :
  String.list_ascii_of_string s = String.list_ascii_of_string t -> s = t.
Proof.
  intros Heq.
  rewrite <- (String.string_of_list_ascii_of_string s), Heq.
  apply String.string_of_list_ascii_of_string.
Qed.

Lemma zip_maps {A B C : Type} (f : A -> B) (g : A -> C) (xs : list A) :
  zip (map f xs) (map g xs) = map (fun x => (f x, g x)) xs.
Proof. induction xs as [| x xs IH]; cbn; [reflexivity | now rewrite IH]. Qed.

Lemma mixed_case_pools s :
  mixed_case_combinations s
  = map String.string_of_list_ascii
      (product (pools_of (String.list_ascii_of_string s))).
Proof.
  unfold mixed_case_combinations, pools_of.
  now rewrite list_of_upper, list_of_lower, zip_maps, map_map.
Qed.

Lemma product_pools_cons c l :
  product (pools_of (c :: l))
  = (map (cons (upper_char c)) (product (pools_of l))
     ++ map (cons (lower_char c)) (product (pools_of l)))%list.
Proof. cbn. now rewrite app_nil_r. Qed.

Lemma product_pools_length l :
  length (product (pools_of l)) = (2 ^ length l)%nat.
Proof.
  induction l as [| c l IH]; [reflexivity |].
  rewrite product_pools_cons, length_app, !length_map, IH. cbn. lia.
Qed.

Lemma elem_of_product_pools x l :
  x ∈ product (pools_of l) <->
  Forall2 (fun a c => a = upper_char c \/ a = lower_char c) x l.
Proof.
  revert x. induction l as [| c l IH]; intros x.
  - cbn. rewrite list_elem_of_singleton. split.
    + intros ->. constructor.
    + intros Hx. now inversion Hx.
  - rewrite product_pools_cons, elem_of_app, !list_elem_of_fmap. split.
    + intros [(y & -> & Hy) | (y & -> & Hy)]; constructor; auto; now apply IH.
    + intros Hx. inversion Hx as [| a c' x' l' Hac Hrest]; subst.
      destruct Hac as [-> | ->]; [left | right];
        (exists x'; split; [reflexivity | now apply IH]).
Qed.

Lemma variants_iff_lower x l :
  Forall2 (fun a c => a = upper_char c \/ a = lower_char c) x l <->
  map lower_char x = map lower_char l.
Proof.
  revert x. induction l as [| c l IH]; intros x.
  - split; [intros Hx; now inversion Hx | destruct x; [constructor | discriminate]].
  - split.
    + intros Hx. inversion Hx as [| a c' x' l' Hac Hrest]; subst. cbn.
      f_equal; [now apply variant_iff_lower | now apply IH].
    + destruct x as [| a x]; [discriminate |]. cbn. intros [= Ha Hx].
      constructor; [now apply variant_iff_lower | now apply IH].
Qed.

(** One item: [t] is among the combinations of [s] exactly when the two
    agree up to case. *)
Lemma elem_of_mixed_case t s :
  t ∈ mixed_case_combinations s <-> lower t = lower s.
Proof.
  rewrite mixed_case_pools, list_elem_of_fmap. split.
  - intros (x & -> & Hx).
    apply elem_of_product_pools, variants_iff_lower in Hx.
    apply list_of_string_inj.
    now rewrite !list_of_lower, String.list_ascii_of_string_of_list_ascii.
  - intros Heq. exists (String.list_ascii_of_string t). split.
    + now rewrite String.string_of_list_ascii_of_string.
    + apply elem_of_product_pools, variants_iff_lower.
      now rewrite <- !list_of_lower, Heq.
Qed.

Lemma get_list_cons s (items : list string) :
  get_list_of_mixed_case_combinations (s :: items)
  = (mixed_case_combinations s ++ get_list_of_mixed_case_combinations items)%list.
Proof. reflexivity. Qed.

Lemma elem_of_get_list t (items : list string) :
  t ∈ get_list_of_mixed_case_combinations items <->
  exists s, s ∈ items /\ lower t = lower s.
Proof.
  induction items as [| s0 items IH].
  - split; [intros Ht; inversion Ht | intros (s & Hs & _); inversion Hs].
  - rewrite get_list_cons, elem_of_app, elem_of_mixed_case, IH. split.
    + intros [Heq | (s & Hs & Heq)].
      * exists s0. split; [left | exact Heq].
      * exists s. split; [now right | exact Heq].
    + intros (s & Hs & Heq). apply elem_of_cons in Hs as [-> | Hs].
      * now left.
      * right. now exists s.
Qed.

Lemma length_list_of_string s :
  length (String.list_ascii_of_string s) = String.length s.
Proof. induction s as [| c s IH]; cbn; [reflexivity | now rewrite IH]. Qed.

Lemma mixed_case_length s :
  length (mixed_case_combinations s) = (2 ^ String.length s)%nat.
Proof.
  now rewrite mixed_case_pools, length_map, product_pools_length,
    length_list_of_string.
Qed.

(** For ASCII items the result has [2 ^ len(s)] entries for each item
    [s], equal entries counted as often as they occur; an empty item gives
    the one empty string. *)
Theorem mixed_case_count (items : list string) :
  Forall (fun s => is_ascii s = true) items ->
  length (get_list_of_mixed_case_combinations items)
  = sum_list (map (fun s => 2 ^ String.length s)%nat items).
Proof.
  intros _. induction items as [| s items IH]; [reflexivity |].
  rewrite get_list_cons, length_app, mixed_case_length, IH. reflexivity.
Qed.

(** For ASCII strings: a string is in the result exactly when it agrees
    with one of the items up to the case of its letters. *)
Theorem mixed_case_membership t (items : list string) :
  Forall (fun s => is_ascii s = true) items ->
  is_ascii t = true ->
  t ∈ get_list_of_mixed_case_combinations items <->
  exists s, s ∈ items /\ lower t = lower s.
Proof. intros _ _. apply elem_of_get_list. Qed.

Lemma product_pools_ends l :
  head (product (pools_of l)) = Some (map upper_char l) /\
  last (product (pools_of l)) = Some (map lower_char l).
Proof.
  induction l as [| c l [IHh IHl]]; [done |].
  rewrite product_pools_cons. split.
  - destruct (product (pools_of l)) as [| x xs]; [discriminate |].
    cbn in *. now injection IHh as ->.
  - destruct (product (pools_of l)) as [| x xs] using rev_ind; [discriminate |].
    rewrite last_snoc in IHl. injection IHl as ->.
    rewrite !map_app. cbn [map]. rewrite app_assoc. now rewrite last_snoc.
Qed.

Lemma mixed_case_ends s :
  head (mixed_case_combinations s) = Some (upper s) /\
  last (mixed_case_combinations s) = Some (lower s).
Proof.
  rewrite mixed_case_pools.
  destruct (product_pools_ends (String.list_ascii_of_string s)) as [Hh Hl].
  rewrite <- list_of_upper in Hh. rewrite <- list_of_lower in Hl.
  split.
  - destruct (product _) as [| x xs]; [discriminate |].
    cbn in *. injection Hh as ->.
    now rewrite String.string_of_list_ascii_of_string.
  - destruct (product _) as [| x xs] using rev_ind; [discriminate |].
    rewrite last_snoc in Hl. injection Hl as ->.
    rewrite map_app. cbn [map]. rewrite last_snoc.
    now rewrite String.string_of_list_ascii_of_string.
Qed.

(** For ASCII items the result starts with the all-capitals spelling of the
    first item and ends with the all-small spelling of the last. *)
Theorem mixed_case_ends_of_list s (items : list string) :
  Forall (fun s => is_ascii s = true) (s :: items) ->
  head (get_list_of_mixed_case_combinations (s :: items)) = Some (upper s) /\
  last (get_list_of_mixed_case_combinations (items ++ [s])%list) = Some (lower s).
Proof.
  intros _. destruct (mixed_case_ends s) as [Hh Hl]. split.
  - rewrite get_list_cons.
    destruct (mixed_case_combinations s); [discriminate | exact Hh].
  - unfold get_list_of_mixed_case_combinations.
    rewrite map_app, concat_app. cbn [map concat]. rewrite app_nil_r.
    destruct (mixed_case_combinations s) as [| x xs] using rev_ind;
      [discriminate |].
    rewrite app_assoc, last_snoc. now rewrite last_snoc in Hl.
Qed.

Lemma nonletter_cases_agree c :
  is_lowercase c || is_uppercase c = false -> upper_char c = lower_char c.
Proof. each_char c; cbn; (reflexivity || discriminate). Qed.

Lemma cases_differ_iff c :
  upper_char c <> lower_char c <-> is_lowercase c || is_uppercase c = true.
Proof.
  split; [| apply letter_cases_differ].
  destruct (is_lowercase c || is_uppercase c) eqn:Hc; [done |].
  intros Hne. now apply nonletter_cases_agree in Hc.
Qed.

Lemma product_pools_nonempty l : product (pools_of l) <> [].
Proof.
  intros Hnil. pose proof (product_pools_length l) as Hlen.
  rewrite Hnil in Hlen. cbn in Hlen.
  pose proof (Nat.pow_nonzero 2 (length l)). lia.
Qed.

Lemma product_pools_NoDup l :
  NoDup (product (pools_of l)) <->
  Forall (fun c => upper_char c <> lower_char c) l.
Proof.
  induction l as [| c l IH].
  - split; [constructor | intros _; apply NoDup_singleton].
  - assert (Hcons : forall a : ascii, Inj (=) (=) (cons a)).
    { intros a x y [= Heq]. exact Heq. }
    rewrite product_pools_cons, NoDup_app, !NoDup_fmap, Forall_cons, IH
      by apply Hcons.
    split.
    + intros (Hl & Hdisj & _). split; [| exact Hl].
      intros Heq.
      destruct (product (pools_of l)) as [| x xs] eqn:Hp;
        [now apply product_pools_nonempty in Hp |].
      apply (Hdisj (upper_char c :: x)).
      * apply list_elem_of_fmap. exists x. split; [reflexivity | left].
      * rewrite Heq. apply list_elem_of_fmap. exists x. split; [reflexivity | left].
    + intros (Hc & Hl). repeat split; try exact Hl.
      intros x Hx1 Hx2.
      apply list_elem_of_fmap in Hx1 as (y1 & -> & _).
      apply list_elem_of_fmap in Hx2 as (y2 & [= Heq _] & _). done.
Qed.

Lemma letters_only_Forall s :
  letters_only s = true <->
  Forall (fun c => upper_char c <> lower_char c) (String.list_ascii_of_string s).
Proof.
  induction s as [| c s IH]; cbn.
  - split; [constructor | reflexivity].
  - rewrite andb_true_iff, Forall_cons, IH, cases_differ_iff. reflexivity.
Qed.

Lemma mixed_case_NoDup s :
  NoDup (mixed_case_combinations s) <-> letters_only s = true.
Proof.
  assert (Hinj : Inj (=) (=) String.string_of_list_ascii).
  { intros x y Heq.
    rewrite <- (String.list_ascii_of_string_of_list_ascii x), Heq.
    apply String.list_ascii_of_string_of_list_ascii. }
  now rewrite mixed_case_pools, NoDup_fmap, product_pools_NoDup, letters_only_Forall.
Qed.

(** For ASCII items the result has no repeated entry exactly when every
    item consists of letters only and no two items agree up to case; an
    ASCII item with a digit or another non-letter has each of its spellings
    more than once. *)
Theorem mixed_case_NoDup_iff (items : list string) :
  Forall (fun s => is_ascii s = true) items ->
  NoDup (get_list_of_mixed_case_combinations items) <->
  Forall (fun s => letters_only s = true) items /\ NoDup (map lower items).
Proof.
  intros _. induction items as [| s items IH].
  - split; [intros _; split; constructor | intros _; constructor].
  - rewrite get_list_cons, NoDup_app, mixed_case_NoDup, IH, Forall_cons.
    cbn [map]. rewrite NoDup_cons.
    assert (Hdisj :
      (forall x, x ∈ mixed_case_combinations s ->
                 x ∉ get_list_of_mixed_case_combinations items) <->
      lower s ∉ map lower items).
    { split.
      - intros Hd Hin. apply list_elem_of_fmap in Hin as (s' & Heq & Hs').
        apply (Hd s); [now apply elem_of_mixed_case |].
        apply elem_of_get_list. now exists s'.
      - intros Hout x Hx Hx'. apply elem_of_mixed_case in Hx.
        apply elem_of_get_list in Hx' as (s' & Hs' & Heq).
        apply Hout. apply list_elem_of_fmap. exists s'.
        split; [congruence | exact Hs']. }
    rewrite Hdisj. tauto.
Qed.

(** A file extension is in [supported_image_formats] exactly when its small
    spelling is one of the nine names, and likewise for the text and the PDF
    formats. *)
Theorem supported_formats_by_lowercase (ext : string) :
  is_ascii ext = true ->
  (ext ∈ supported_image_formats <->
   lower ext ∈ ["png"; "pnm"; "jpg"; "jpeg"; "tif"; "tiff"; "bmp"; "pbm"; "ppm"]) /\
  (ext ∈ supported_text_formats <-> lower ext ∈ ["txt"; "text"]) /\
  (ext ∈ supported_pdf_formats <-> lower ext ∈ ["pdf"]).
Proof.
  intros _.
  assert (Hlow : forall items : list string,
             map lower items = items ->
             ext ∈ get_list_of_mixed_case_combinations items <-> lower ext ∈ items).
  { intros items Hitems. rewrite elem_of_get_list. split.
    - intros (s & Hs & ->). rewrite <- Hitems.
      apply list_elem_of_fmap. now exists s.
    - intros Hin. exists (lower ext). split; [exact Hin |].
      rewrite <- Hitems in Hin.
      apply list_elem_of_fmap in Hin as (s & -> & _).
      clear. induction s as [| c s IH]; cbn; [reflexivity |].
      now rewrite lower_lower_char, <- IH. }
  repeat split; apply Hlow; reflexivity.
Qed.

End MixedCase.

(** ** The resource paths *)

Section Resources.
Import Macros.
Implicit Types (g : resources) (d path b : string).

Lemma os_path_join_app a (p q : list string) :
  os_path_join a (p ++ q)%list = os_path_join (os_path_join a p) q.
Proof. apply fold_left_app. Qed.

Lemma append_nonempty a b : b <> "" -> a +:+ b <> "".
Proof. destruct a; [done | discriminate]. Qed.

Lemma endswith_sep_app a b : b <> "" -> endswith_sep (a +:+ b) = endswith_sep b.
Proof.
  intros Hb. induction a as [| c a IH]; [reflexivity |].
  change (String c a +:+ b) with (String c (a +:+ b)).
  destruct (a +:+ b) eqn:Hab; [| exact IH].
  now apply append_nonempty in Hab.
Qed.

(** A join with a non-empty last component ends as the component does. *)
Lemma join_step_end path b :
  b <> "" -> join_step path b <> "" /\
             endswith_sep (join_step path b) = endswith_sep b.
Proof.
  intros Hb. unfold join_step.
  destruct (startswith_sep b || bool_decide (path = "")); [done |].
  destruct (endswith_sep path).
  - split; [now apply append_nonempty | now apply endswith_sep_app].
  - split; [apply append_nonempty, append_nonempty, Hb |].
    rewrite !endswith_sep_app; [reflexivity | exact Hb |].
    now apply append_nonempty.
Qed.

Lemma join_relative d (name : string) :
  d <> "" -> endswith_sep d = false -> startswith_sep name = false ->
  os_path_join d [name] = d +:+ "/" +:+ name.
Proof.
  intros Hd Hend Hrel. cbn. unfold join_step.
  now rewrite Hrel, Hend, bool_decide_eq_false_2.
Qed.

(** An absolute component discards everything before it, and so does any
    component after an empty path; a relative component after a non-empty
    path is appended, with one slash added unless the path ends in one. *)
Theorem os_path_join_components a (p q : list string) b :
  (startswith_sep b = true ->
   os_path_join a (p ++ b :: q)%list = os_path_join b q) /\
  (os_path_join a p = "" ->
   os_path_join a (p ++ b :: q)%list = os_path_join b q) /\
  (startswith_sep b = false -> os_path_join a p <> "" ->
   os_path_join a (p ++ [b])%list
   = os_path_join a p +:+ (if endswith_sep (os_path_join a p) then "" else "/") +:+ b).
Proof.
  repeat split.
  - intros Habs. rewrite os_path_join_app. cbn. unfold join_step at 2.
    now rewrite Habs.
  - intros Hempty. rewrite os_path_join_app, Hempty. cbn. unfold join_step at 2.
    now rewrite orb_true_r.
  - intros Hrel Hne. rewrite os_path_join_app. cbn. unfold join_step at 1.
    rewrite Hrel, (bool_decide_eq_false_2 _ Hne). cbn [orb].
    now destruct (endswith_sep (os_path_join a p)).
Qed.

Section FixedFileSystem.
Variable os_path_exists : string -> bool.
Variables parent_dir user_home_path : string.

Lemma candidate_shape d : d ∈ (resolve_candidates parent_dir user_home_path) -> d <> "" /\ endswith_sep d = false.
Proof.
  unfold resolve_candidates. rewrite !elem_of_cons.
  intros [-> | [-> | [-> | [-> | Hnil]]]]; try done; [| | inversion Hnil].
  - change (os_path_join parent_dir ["share"; "lios"])
      with (join_step (os_path_join parent_dir ["share"]) "lios").
    now apply join_step_end.
  - change (os_path_join user_home_path [".local"; "share"; "lios"])
      with (join_step (os_path_join user_home_path [".local"; "share"]) "lios").
    now apply join_step_end.
Qed.

Lemma resolved_datadir :
  datadir (_resolve_datadir os_path_exists parent_dir user_home_path)
  = default "/usr/share/lios"
      (find (fun d => os_path_exists (d +:+ "/lios.png")) (resolve_candidates parent_dir user_home_path)).
Proof.
  unfold _resolve_datadir, resolve_candidates. cbn [datadir resources_under find].
  assert (Hlogo : forall d, d ∈ (resolve_candidates parent_dir user_home_path) ->
                            os_path_join d ["lios.png"] = d +:+ "/lios.png").
  { intros d Hd. destruct (candidate_shape d Hd) as [Hne Hend].
    now apply join_relative. }
  rewrite <- (Hlogo (os_path_join parent_dir ["share"; "lios"]))
    by (unfold resolve_candidates; set_solver).
  rewrite <- (Hlogo (os_path_join user_home_path [".local"; "share"; "lios"]))
    by (unfold resolve_candidates; set_solver).
  rewrite <- (os_path_join_app user_home_path [".local"; "share"; "lios"] ["lios.png"]).
  cbn [app].
  change ("/usr/share/lios" +:+ "/lios.png") with "/usr/share/lios/lios.png".
  change ("/usr/local/share/lios" +:+ "/lios.png") with "/usr/local/share/lios/lios.png".
  repeat (destruct (os_path_exists _); [reflexivity |]). reflexivity.
Qed.

Lemma resolved_datadir_candidate :
  datadir (_resolve_datadir os_path_exists parent_dir user_home_path) ∈ (resolve_candidates parent_dir user_home_path).
Proof.
  unfold _resolve_datadir, resolve_candidates. cbn [datadir resources_under].
  repeat (destruct (os_path_exists _); [set_solver |]). set_solver.
Qed.

Lemma resolved_paths (name : string) :
  startswith_sep name = false ->
  os_path_join (datadir (_resolve_datadir os_path_exists parent_dir user_home_path))
    [name]
  = datadir (_resolve_datadir os_path_exists parent_dir user_home_path)
    +:+ "/" +:+ name.
Proof.
  intros Hrel.
  destruct (candidate_shape _ resolved_datadir_candidate) as [Hne Hend].
  now apply join_relative.
Qed.

Lemma resolved_logo_exists :
  os_path_exists (logo_file (_resolve_datadir os_path_exists parent_dir user_home_path))
  = true \/
  datadir (_resolve_datadir os_path_exists parent_dir user_home_path)
  = "/usr/share/lios".
Proof.
  change (logo_file (_resolve_datadir os_path_exists parent_dir user_home_path))
    with (os_path_join
            (datadir (_resolve_datadir os_path_exists parent_dir user_home_path))
            ["lios.png"]).
  rewrite resolved_paths by reflexivity. rewrite resolved_datadir.
  destruct (find _ _) as [d |] eqn:Hfind; [| now right].
  left. apply find_some in Hfind as [_ Hex]. exact Hex.
Qed.

(** [_resolve_datadir] picks the first of its four directories that holds
    [lios.png], and [/usr/share/lios] when none does; the four resource
    paths are that directory, a slash and the file name; and the logo it
    names exists unless the choice was the fallback. *)
Theorem resolve_datadir_choice :
  let g := _resolve_datadir os_path_exists parent_dir user_home_path in
  datadir g
  = default "/usr/share/lios"
      (find (fun d => os_path_exists (d +:+ "/lios.png"))
         (resolve_candidates parent_dir user_home_path)) /\
  logo_file g = datadir g +:+ "/lios.png" /\
  icon_dir g = datadir g +:+ "/icons" /\
  readme_file g = datadir g +:+ "/readme.text" /\
  default_text_cleaner_list_file_path g
  = datadir g +:+ "/text_cleaner_list.text" /\
  (os_path_exists (logo_file g) = true \/ datadir g = "/usr/share/lios").
Proof.
  intros g.
  split; [apply resolved_datadir |].
  repeat split; try (now apply resolved_paths).
  apply resolved_logo_exists.
Qed.

Lemma set_datadir_accepted (new_datadir : string) g :
  os_path_exists (os_path_join new_datadir ["lios.png"]) = true ->
  set_datadir os_path_exists new_datadir g
  = resources_under new_datadir (os_path_join new_datadir ["lios.png"]).
Proof. intros Hacc. unfold set_datadir. now rewrite Hacc. Qed.

Lemma set_datadir_refused (new_datadir : string) g :
  os_path_exists (os_path_join new_datadir ["lios.png"]) = false ->
  set_datadir os_path_exists new_datadir g = g.
Proof. intros Href. unfold set_datadir. now rewrite Href. Qed.

(** [set_datadir] is all or nothing: where the new directory has no
    [lios.png] every global stays as it was, and where it has one all five
    are set from the new directory. Calling it again with the same directory
    changes nothing more, and an os_path_exists (os_path_join directory ["lios.png"]) = true replaces whatever an
    earlier call did. *)
Theorem set_datadir_all_or_nothing (new_datadir : string) g :
  (os_path_exists (os_path_join new_datadir ["lios.png"]) = false ->
   set_datadir os_path_exists new_datadir g = g) /\
  (os_path_exists (os_path_join new_datadir ["lios.png"]) = true ->
   datadir (set_datadir os_path_exists new_datadir g) = new_datadir /\
   consistent (set_datadir os_path_exists new_datadir g) /\
   os_path_exists (logo_file (set_datadir os_path_exists new_datadir g)) = true) /\
  set_datadir os_path_exists new_datadir
    (set_datadir os_path_exists new_datadir g)
  = set_datadir os_path_exists new_datadir g /\
  (forall later, os_path_exists (os_path_join later ["lios.png"]) = true ->
     set_datadir os_path_exists later (set_datadir os_path_exists new_datadir g)
     = set_datadir os_path_exists later g).
Proof.
  split; [apply set_datadir_refused |]. split; [| split].
  - intros Hacc. rewrite (set_datadir_accepted _ _ Hacc). done.
  - destruct (os_path_exists (os_path_join new_datadir ["lios.png"])) eqn:Hnew.
    + now rewrite !(set_datadir_accepted _ _ Hnew).
    + now rewrite !(set_datadir_refused _ _ Hnew).
  - intros later Hacc. now rewrite !(set_datadir_accepted _ _ Hacc).
Qed.

Lemma after_overrides_snoc (news : list string) (new_datadir : string) :
  after_overrides os_path_exists parent_dir user_home_path (news ++ [new_datadir])%list
  = set_datadir os_path_exists new_datadir
      (after_overrides os_path_exists parent_dir user_home_path news).
Proof. unfold after_overrides. now rewrite fold_left_app. Qed.

(** After the import and any run of [set_datadir] calls on one file system:
    the four resource paths are the ones under [datadir]; the logo named
    exists unless [datadir] is the fallback [/usr/share/lios]; and [datadir]
    is the directory of the last os_path_exists (os_path_join call ["lios.png"]) = true, or the one resolved at
    import when no call was accepted. The names the module starts from,
    before [_resolve_datadir] runs, are not of that form. *)
Theorem overrides_invariant (news : list string) :
  let g := after_overrides os_path_exists parent_dir user_home_path news in
  consistent g /\
  (os_path_exists (logo_file g) = true \/ datadir g = "/usr/share/lios") /\
  (Forall (fun new_datadir =>
             os_path_exists (os_path_join new_datadir ["lios.png"]) = false) news ->
   g = _resolve_datadir os_path_exists parent_dir user_home_path) /\
  (forall before new_datadir after,
      news = (before ++ new_datadir :: after)%list ->
      os_path_exists (os_path_join new_datadir ["lios.png"]) = true ->
      Forall (fun later =>
                os_path_exists (os_path_join later ["lios.png"]) = false) after ->
      g = resources_under new_datadir (os_path_join new_datadir ["lios.png"])) /\
  ~ consistent default_names.
Proof.
  intros g. subst g.
  split; [| split; [| split; [| split]]].
  - induction news as [| new_datadir news IH] using rev_ind; [reflexivity |].
    rewrite after_overrides_snoc. unfold set_datadir.
    destruct (os_path_exists _); [reflexivity | exact IH].
  - induction news as [| new_datadir news IH] using rev_ind.
    + apply resolved_logo_exists.
    + rewrite after_overrides_snoc. unfold set_datadir.
      destruct (os_path_exists (os_path_join new_datadir ["lios.png"])) eqn:Hnew;
        [now left | exact IH].
  - induction news as [| new_datadir news IH] using rev_ind; [reflexivity |].
    intros Hall. apply Forall_app in Hall as [Hnews Hnew].
    rewrite Forall_singleton in Hnew.
    now rewrite after_overrides_snoc, (set_datadir_refused _ _ Hnew), IH.
  - intros before new_datadir after -> Hacc Hafter.
    revert Hafter. induction after as [| later after IH] using rev_ind;
      intros Hafter.
    + now rewrite after_overrides_snoc, (set_datadir_accepted _ _ Hacc).
    + apply Forall_app in Hafter as [Hafter Hlater].
      rewrite Forall_singleton in Hlater.
      replace (before ++ new_datadir :: after ++ [later])%list
        with ((before ++ new_datadir :: after) ++ [later])%list
        by now rewrite <- app_assoc.
      now rewrite after_overrides_snoc, (set_datadir_refused _ _ Hlater), IH.
  - unfold consistent, default_names. cbn. discriminate.
Qed.

End FixedFileSystem.

End Resources.

(** * The further properties at concrete inputs *)

Section MoreInstances.
Import Demo Macros.

(** A forced call on the sealed module returns [False] and keeps the flag;
    the first call on Linux returns [True] and sets it. *)
Lemma initialize_result_and_flag_witness :
  _initialized
    (process_after
       (initialize (Multiprocessing0 := sealed_mp) true false sealed_process))
  = _initialized sealed_process /\
  _initialized (process_after (initialize false false (posix py_3_14_0 None)))
  = true.
Proof.
  split.
  - apply (initialize_result_and_flag (Multiprocessing0 := sealed_mp)
             true false sealed_process).
    discriminate.
  - apply (initialize_result_and_flag false false (posix py_3_14_0 None)).
    reflexivity.
Defined.

Lemma initialize_leaves_start_method_witness :
  multiprocessing
    (process_after (initialize true true (posix py_3_14_0 (Some "fork"))))
  = multiprocessing (posix py_3_14_0 (Some "fork")).
Proof.
  apply (initialize_leaves_start_method true true (posix py_3_14_0 (Some "fork"))).
  right. right. reflexivity.
Defined.

(** Forced, [fork] replaces a [spawn] that was fixed. *)
Lemma initialize_selects_fork_witness :
  current_start_method
    (get_status
       (process_after (initialize true false (posix py_3_14_0 (Some "spawn")))))
  = Some "fork".
Proof.
  apply (initialize_selects_fork true false (posix py_3_14_0 (Some "spawn")));
    [reflexivity | | now right | now right].
  unfold posix, posix_contexts. cbn. left.
Defined.

(** Python 3.14 on Windows: the call, and so the import, raises. *)
Lemma initialize_raises_iff_witness :
  result_of (initialize false false (windows py_3_14_0 None))
  = Raised (ValueError "cannot find context for 'fork'") /\
  process_after (initialize false false (windows py_3_14_0 None))
  = windows py_3_14_0 None.
Proof.
  apply (initialize_raises_iff false false (windows py_3_14_0 None)).
  reflexivity.
Defined.

Lemma first_initialize_compatibility_witness :
  compatible
    (get_status
       (process_after (initialize false false (posix py_3_14_0 (Some "spawn")))))
  = false.
Proof.
  apply (first_initialize_compatibility false (posix py_3_14_0 (Some "spawn")));
    [reflexivity | reflexivity |].
  split; [reflexivity |]. exists "spawn". split; [reflexivity | discriminate].
Defined.

Lemma ensure_fork_context_runs_initialized_witness :
  ensure_fork_context probe ()
    (process_after (import_mp_compat (posix py_3_14_0 None)))
  = probe () (process_after (import_mp_compat (posix py_3_14_0 None))).
Proof.
  apply (ensure_fork_context_runs_initialized probe () (posix py_3_14_0 None)).
  reflexivity.
Defined.

Lemma set_language_2_3_iff_witness :
  (set_language_3 (OcrEngine0 := echo_engine) (__init__ PyNone) "hin").2
    !! "language_3"
  = Some (PyStr "hin").
Proof.
  apply (set_language_2_3_iff (OcrEngine0 := echo_engine) (__init__ PyNone) "hin").
  reflexivity.
Defined.

Lemma select_frame_witness :
  (select (OcrEngine0 := echo_engine) Secondary (__init__ (PyStr "eng")) "xx").2
    !! "language"
  = __init__ (PyStr "eng") !! "language".
Proof.
  apply (select_frame (OcrEngine0 := echo_engine) Secondary
           (__init__ (PyStr "eng")) "xx" "language").
  discriminate.
Defined.

Lemma select_commute_witness :
  (select (OcrEngine0 := echo_engine) Tertiary
     (select (OcrEngine0 := echo_engine) Primary (__init__ PyNone) "mal").2 "xx").2
  = (select (OcrEngine0 := echo_engine) Primary
       (select (OcrEngine0 := echo_engine) Tertiary (__init__ PyNone) "xx").2
       "mal").2.
Proof.
  apply (select_commute (OcrEngine0 := echo_engine) Primary Tertiary
           (__init__ PyNone) "mal" "xx").
  discriminate.
Defined.

Lemma select_overwrites_witness :
  (select (OcrEngine0 := echo_engine) Secondary
     (select (OcrEngine0 := echo_engine) Secondary (__init__ PyNone) "mal").2
     "xx").2
  = (select (OcrEngine0 := echo_engine) Secondary (__init__ PyNone) "xx").2.
Proof.
  apply (select_overwrites (OcrEngine0 := echo_engine) Secondary
           (__init__ PyNone) "mal" "xx").
  left. discriminate.
Defined.

Lemma primary_slot_history_witness :
  engine_run (OcrEngine0 := echo_engine)
    [Select Primary "xx"; Select Primary "mal"; Select Secondary "eng";
     Select Primary "yy"]
    (__init__ (PyStr "eng")) !! "language"
  = Some (PyStr "mal").
Proof.
  destruct (primary_slot_history (OcrEngine0 := echo_engine) (PyStr "eng")
              [Select Primary "xx"; Select Primary "mal"; Select Secondary "eng";
               Select Primary "yy"]) as [_ Hlast].
  apply (Hlast [Select Primary "xx"] "mal"
           [Select Secondary "eng"; Select Primary "yy"]).
  - reflexivity.
  - refine (proj1 (bool_decide_eq_true _) _). reflexivity.
  - repeat constructor.
Defined.

Lemma extra_slot_history_witness :
  engine_run (OcrEngine0 := echo_engine)
    [Select Tertiary "hin"; Select Primary "eng"]
    (__init__ PyNone) !! "language_2"
  = None.
Proof.
  destruct (extra_slot_history (OcrEngine0 := echo_engine) Secondary PyNone
              [Select Tertiary "hin"; Select Primary "eng"]) as [Hnone _].
  - discriminate.
  - apply Hnone. repeat constructor.
Defined.

Lemma attributes_of_instance_witness :
  ~ is_Some
      (engine_run (OcrEngine0 := echo_engine)
         [Select Secondary "hin"; Cancel] (__init__ PyNone) !! "languages").
Proof.
  intros Hsome.
  destruct (attributes_of_instance (OcrEngine0 := echo_engine) PyNone
              [Select Secondary "hin"; Cancel] "languages") as [_ Honly].
  destruct (Honly Hsome) as [[=] | [[=] | [=]]].
Defined.

Lemma mixed_case_count_witness :
  length supported_image_formats = 88%nat.
Proof.
  unfold supported_image_formats.
  rewrite (mixed_case_count
             ["png"; "pnm"; "jpg"; "jpeg"; "tif"; "tiff"; "bmp"; "pbm"; "ppm"]).
  - reflexivity.
  - repeat constructor.
Defined.

Lemma mixed_case_membership_witness :
  "JpEg" ∈ supported_image_formats.
Proof.
  apply (mixed_case_membership "JpEg"
           ["png"; "pnm"; "jpg"; "jpeg"; "tif"; "tiff"; "bmp"; "pbm"; "ppm"]).
  - repeat constructor.
  - reflexivity.
  - exists "jpeg". split; [| reflexivity].
    refine (proj1 (bool_decide_eq_true _) _). reflexivity.
Defined.

Lemma mixed_case_ends_of_list_witness :
  head supported_text_formats = Some "TXT" /\
  last supported_text_formats = Some "text".
Proof.
  split.
  - apply (mixed_case_ends_of_list "txt" ["text"]). repeat constructor.
  - apply (mixed_case_ends_of_list "text" ["txt"]). repeat constructor.
Defined.

Lemma mixed_case_NoDup_iff_witness :
  NoDup supported_image_formats /\
  ~ NoDup (get_list_of_mixed_case_combinations ["mp3"]).
Proof.
  split.
  - apply (mixed_case_NoDup_iff
             ["png"; "pnm"; "jpg"; "jpeg"; "tif"; "tiff"; "bmp"; "pbm"; "ppm"]).
    + repeat constructor.
    + split; [repeat constructor |].
      refine (proj1 (bool_decide_eq_true _) _). reflexivity.
  - intros Hnodup.
    apply (mixed_case_NoDup_iff ["mp3"]) in Hnodup as [Hletters _];
      [| repeat constructor].
    apply Forall_inv in Hletters. discriminate.
Defined.

Lemma supported_formats_by_lowercase_witness :
  "Pdf" ∈ supported_pdf_formats /\ ~ "pdf" ∈ supported_image_formats.
Proof.
  destruct (supported_formats_by_lowercase "Pdf" eq_refl) as (_ & _ & Hpdf).
  destruct (supported_formats_by_lowercase "pdf" eq_refl) as (Himage & _ & _).
  split.
  - apply Hpdf. refine (proj1 (bool_decide_eq_true _) _). reflexivity.
  - intros Hin. apply Himage in Hin. revert Hin.
    refine (proj1 (bool_decide_eq_false _) _). reflexivity.
Defined.

Lemma os_path_join_components_witness :
  os_path_join "/home/user" [".local"; "/usr/share"; "lios"]
  = os_path_join "/usr/share" ["lios"].
Proof.
  destruct (os_path_join_components "/home/user" [".local"] ["lios"] "/usr/share")
    as [Habsolute _].
  apply Habsolute. reflexivity.
Defined.

Lemma set_datadir_all_or_nothing_witness :
  set_datadir DemoFiles.os_path_exists "/nowhere"
    (_resolve_datadir DemoFiles.os_path_exists "/opt/lios" "/home/user")
  = _resolve_datadir DemoFiles.os_path_exists "/opt/lios" "/home/user" /\
  datadir
    (set_datadir DemoFiles.os_path_exists "/srv/lios"
       (_resolve_datadir DemoFiles.os_path_exists "/opt/lios" "/home/user"))
  = "/srv/lios".
Proof.
  split.
  - destruct (set_datadir_all_or_nothing DemoFiles.os_path_exists "/nowhere"
                (_resolve_datadir DemoFiles.os_path_exists "/opt/lios" "/home/user"))
      as [Hrefused _].
    apply Hrefused. reflexivity.
  - destruct (set_datadir_all_or_nothing DemoFiles.os_path_exists "/srv/lios"
                (_resolve_datadir DemoFiles.os_path_exists "/opt/lios" "/home/user"))
      as (_ & Haccepted & _).
    apply Haccepted. reflexivity.
Defined.

Lemma overrides_invariant_witness :
  after_overrides DemoFiles.os_path_exists "/opt/lios" "/home/user"
    ["/nowhere"; "/srv/lios"; "/tmp"]
  = resources_under "/srv/lios" "/srv/lios/lios.png".
Proof.
  destruct (overrides_invariant DemoFiles.os_path_exists "/opt/lios" "/home/user"
              ["/nowhere"; "/srv/lios"; "/tmp"]) as (_ & _ & _ & Hlast & _).
  apply (Hlast ["/nowhere"] "/srv/lios" ["/tmp"]).
  - reflexivity.
  - reflexivity.
  - repeat constructor.
Defined.

End MoreInstances.
